(** * The retrieval knowledge base of the utility-document processor

    A shallow embedding of [src/rag/knowledge_base.py] (the document
    loader and the create / update / query operations over the Chroma
    collection) and of [generate_answer] in [app.py], together with the
    properties the specification states about them.

    Conventions.
    - A Python [str] is a [string]; each character stands for one code
      point below 256.
    - A Python [dict] is an association list in insertion order (the
      order [json.dumps] walks it in); its keys are pairwise distinct.
    - An embedding is a list of IEEE doubles, each kept as its 64-bit
      pattern; the model never computes with them.
    - The module's functions run in a state-and-exception monad over
      [World]: the environment variables, the record directory, the
      persisted vector store, the requests sent to the remote services
      and the standard output.  A raised exception keeps the world as it
      was at the [raise] (nothing is rolled back).
    - The remote services (embedding endpoint, chat endpoint) and the
      nearest-neighbour search are not code of this repository: they
      are the fields of a [Services] record, each a function of the
      requests answered so far and of the current request. *)

From Stdlib Require Import Ascii String QArith.
From stdpp Require Import gmap strings list fin_maps pretty.

#[local] Set Warnings "-register-all".
#[local] Open Scope string_scope.
#[local] Open Scope list_scope.

(** ** Python strings *)

Module Py.

Definition LF : string := String "010"%char "".
Definition DQUOTE : string := String "034"%char "".
Definition BACKSLASH : string := String "092"%char "".

(** [sep.join(parts)] *)
Definition join (sep : string) (parts : list string) : string :=
  String.concat sep parts.

(** [' ' * n] *)
Fixpoint spaces (n : nat) : string :=
  match n with
  | O => ""
  | S n' => String " "%char (spaces n')
  end.

Definition hex_digit (n : nat) : ascii :=
  match n with
  | 0 => "0" | 1 => "1" | 2 => "2" | 3 => "3" | 4 => "4"
  | 5 => "5" | 6 => "6" | 7 => "7" | 8 => "8" | 9 => "9"
  | 10 => "a" | 11 => "b" | 12 => "c" | 13 => "d" | 14 => "e"
  | _ => "f"
  end%char.

(** ['\\u{0:04x}'.format(n)] for a code point below 256 *)
Definition u_escape (n : nat) : string :=
  BACKSLASH +:+ "u00" +:+
  String (hex_digit (n / 16)) (String (hex_digit (n mod 16)) "").

End Py.

(** ** JSON values and [json.dumps(data, indent=2)] *)

Module Json.

(** What [json.load] returns.  A float carries the text
    [float.__repr__] gives for it. *)
Inductive json : Type :=
| JNull
| JBool (b : bool)
| JInt (z : Z)
| JFloat (repr : string)
| JStr (s : string)
| JList (elems : list json)
| JDict (items : list (string * json)).

(** A record of the pipeline: a [dict], in insertion order. *)
Definition record : Type := list (string * json).

(** [d.get(key)]: the value stored under [key], [None] otherwise. *)
Fixpoint get (key : string) (d : record) : option json :=
  match d with
  | [] => None
  | (k, v) :: rest => if String.eqb k key then Some v else get key rest
  end.


(** The replacement table of [json.encoder.py_encode_basestring_ascii]:
    backslash, quote and everything outside [' '..'~'] is escaped. *)
Definition escape_char (c : ascii) : string :=
  let n := nat_of_ascii c in
  if Nat.eqb n 92 then Py.BACKSLASH +:+ Py.BACKSLASH
  else if Nat.eqb n 34 then Py.BACKSLASH +:+ Py.DQUOTE
  else if Nat.eqb n 8 then Py.BACKSLASH +:+ "b"
  else if Nat.eqb n 12 then Py.BACKSLASH +:+ "f"
  else if Nat.eqb n 10 then Py.BACKSLASH +:+ "n"
  else if Nat.eqb n 13 then Py.BACKSLASH +:+ "r"
  else if Nat.eqb n 9 then Py.BACKSLASH +:+ "t"
  else if (Nat.ltb n 32 || Nat.ltb 126 n)%bool then Py.u_escape n
  else String c "".

Fixpoint escape (s : string) : string :=
  match s with
  | EmptyString => ""
  | String c rest => escape_char c +:+ escape rest
  end.

Definition encode_basestring_ascii (s : string) : string :=
  Py.DQUOTE +:+ escape s +:+ Py.DQUOTE.

(** [floatstr] of [json.encoder] *)
Definition floatstr (repr : string) : string :=
  if String.eqb repr "nan" then "NaN"
  else if String.eqb repr "inf" then "Infinity"
  else if String.eqb repr "-inf" then "-Infinity"
  else repr.

Definition newline_indent (indent level : nat) : string :=
  Py.LF +:+ Py.spaces (indent * level).

(** [_iterencode] with an indent: an empty container is written
    closed; otherwise every item goes on a line of its own, one level
    deeper, items separated by [","] and keys from values by [": "]. *)
Fixpoint iterencode (indent level : nat) (v : json) : string :=
  match v with
  | JNull => "null"
  | JBool true => "true"
  | JBool false => "false"
  | JInt z => pretty z
  | JFloat r => floatstr r
  | JStr s => encode_basestring_ascii s
  | JList [] => "[]"
  | JList elems =>
      "[" +:+ newline_indent indent (S level)
      +:+ Py.join ("," +:+ newline_indent indent (S level))
           (map (iterencode indent (S level)) elems)
      +:+ newline_indent indent level +:+ "]"
  | JDict [] => "{}"
  | JDict items =>
      "{" +:+ newline_indent indent (S level)
      +:+ Py.join ("," +:+ newline_indent indent (S level))
           (map (fun kv => encode_basestring_ascii (fst kv) +:+ ": "
                           +:+ iterencode indent (S level) (snd kv)) items)
      +:+ newline_indent indent level +:+ "}"
  end.

(** [json.dumps(data, indent=2)] *)
Definition dumps_indent2 (data : json) : string := iterencode 2 0 data.

(** [str(v)], as an f-string formats a value; [None] is the absent
    value of [dict.get].  The text Python gives a list or a dict
    quotes nested strings by [repr], which is outside this model:
    [container_repr] stands for it. *)
Definition format_value (container_repr : json -> string) (v : option json) : string :=
  match v with
  | None => "None"
  | Some JNull => "None"
  | Some (JBool true) => "True"
  | Some (JBool false) => "False"
  | Some (JInt z) => pretty z
  | Some (JFloat r) => r
  | Some (JStr s) => s
  | Some (JList elems) => container_repr (JList elems)
  | Some (JDict items) => container_repr (JDict items)
  end.

End Json.

(** ** Exceptions, documents, index entries *)

Inductive index_fault : Type :=
| CollectionNotFound (name : string)
| DuplicateID
| InconsistentLengths
| EmptyBatch
| SearchFailed (msg : string).

(** The exceptions that can leave the module.  [ValueError] is what the
    module raises itself; the others stand for whatever the library
    underneath raises: [ProviderError] for a failed embedding request,
    [IndexError] for a Chroma error, [GenerationError] for a failed chat
    completion, [OpenAIError] for a client built without a key and
    [FileError] for what [open] or [json.load] raises on a file other
    than [json.JSONDecodeError] (an [OSError], a [UnicodeDecodeError]). *)
Inductive exn : Type :=
| ValueError (msg : string)
| ProviderError (msg : string)
| IndexError (fault : index_fault)
| GenerationError (msg : string)
| OpenAIError (msg : string)
| FileError (msg : string).

(** The error the module raises when the credential is missing (the
    configuration error of the specification). *)
Definition ConfigError : exn :=
  ValueError "OPENAI_API_KEY environment variable not set.".

Inductive Result (A : Type) : Type :=
| Return (a : A)
| Raise (e : exn).
Arguments Return {A} a.
Arguments Raise {A} e.

(** The answer of a remote service. *)
Inductive reply (A : Type) : Type :=
| Replied (a : A)
| Failed (msg : string).
Arguments Replied {A} a.
Arguments Failed {A} msg.

(** An embedding: its components, each as the bit pattern of a double. *)
Definition vector : Type := list Z.

(** [langchain_core.documents.Document] *)
Record Document : Type := mkDocument {
  page_content : string;
  metadata : list (string * string)
}.

(** One row of a Chroma collection. *)
Record Entry : Type := mkEntry {
  entry_id : string;
  entry_embedding : vector;
  entry_document : string;
  entry_metadata : list (string * string)
}.

(** The body of [client.chat.completions.create]. *)
Record ChatRequest : Type := mkChatRequest {
  model : string;
  messages : list (string * string);
  temperature : Q
}.

(** What [open] followed by [json.load] does on one file of the record
    directory: it gives the decoded data, raises [json.JSONDecodeError]
    ([Malformed]), or raises something else ([Unreadable]). *)
Inductive FileRead : Type :=
| Parsed (data : Json.json)
| Malformed
| Unreadable (msg : string).

(** What lies outside the repository: Python's [repr] of a list or a
    dict, the embedding provider, the chat endpoint and Chroma's
    nearest-neighbour search.  The two remote services see the requests
    they answered before. *)
Record Externals : Type := mkExternals {
  container_repr : Json.json -> string;
  embed_remote : list (list string) -> list string -> reply (list vector);
  chat_remote : list ChatRequest -> ChatRequest -> reply string;
  search : list Entry -> list vector -> Z -> reply (option (list (list string)))
}.

(** ** The world and the monad *)

Record World : Type := mkWorld {
  environ : gmap string string;
  final_json_dir : option (list (string * FileRead));
  vector_db : gmap string (list Entry);
  embed_log : list (list string);
  chat_log : list ChatRequest;
  stdout : list string
}.

Definition set_vector_db (db : gmap string (list Entry)) (w : World) : World :=
  mkWorld (environ w) (final_json_dir w) db (embed_log w) (chat_log w) (stdout w).

Definition set_embed_log (log : list (list string)) (w : World) : World :=
  mkWorld (environ w) (final_json_dir w) (vector_db w) log (chat_log w) (stdout w).

Definition set_chat_log (log : list ChatRequest) (w : World) : World :=
  mkWorld (environ w) (final_json_dir w) (vector_db w) (embed_log w) log (stdout w).

Definition set_stdout (out : list string) (w : World) : World :=
  mkWorld (environ w) (final_json_dir w) (vector_db w) (embed_log w) (chat_log w) out.

Definition M (A : Type) : Type := World -> Result A * World.

Definition ret {A : Type} (a : A) : M A := fun w => (Return a, w).

Definition raise {A : Type} (e : exn) : M A := fun w => (Raise e, w).

Definition bind {A B : Type} (c : M A) (k : A -> M B) : M B :=
  fun w =>
    match c w with
    | (Return a, w') => k a w'
    | (Raise e, w') => (Raise e, w')
    end.

Notation "'do' x <- c ; k" := (bind c (fun x => k))
  (at level 10, x name, c at level 100, k at level 200).
Notation "c >> k" := (bind c (fun _ => k))
  (at level 65, right associativity).

(** [for x in xs: body(x)] *)
Fixpoint for_ {A : Type} (xs : list A) (body : A -> M unit) : M unit :=
  match xs with
  | [] => ret tt
  | x :: rest => body x >> for_ rest body
  end.

(** [print(line)] *)
Definition print (line : string) : M unit :=
  fun w => (Return tt, set_stdout (stdout w ++ [line]) w).

(** [os.getenv(name)] *)
Definition getenv (name : string) : M (option string) :=
  fun w => (Return (environ w !! name), w).

(** Python's [not api_key] on the result of [os.getenv]. *)
Definition falsy_str (v : option string) : bool :=
  match v with
  | None => true
  | Some s => String.eqb s ""
  end.

(** ** The settings the module imports ([config/settings.py]) *)

Definition COLLECTION_NAME : string := "utility_docs".
Definition EMBEDDING_MODEL : string := "text-embedding-3-small".
Definition EMBEDDING_BATCH_SIZE : nat := 100.

(** ** The vector store (chromadb), as the module uses it

    A [PersistentClient] on the storage directory gives access to the
    collections persisted there; building it creates no collection.  A
    collection handle is the collection's name. *)

Module Chroma.

(** [client.get_or_create_collection(name=...)]: reuse, or create empty. *)
Definition get_or_create_collection (name : string) : M string :=
  fun w =>
    match vector_db w !! name with
    | Some _ => (Return name, w)
    | None => (Return name, set_vector_db (<[name := []]> (vector_db w)) w)
    end.

(** [client.get_collection(name=...)]: an error when there is no such
    collection. *)
Definition get_collection (name : string) : M string :=
  fun w =>
    match vector_db w !! name with
    | Some _ => (Return name, w)
    | None => (Raise (IndexError (CollectionNotFound name)), w)
    end.

(** [collection.count()] *)
Definition count (coll : string) : M nat :=
  fun w =>
    match vector_db w !! coll with
    | Some entries => (Return (length entries), w)
    | None => (Raise (IndexError (CollectionNotFound coll)), w)
    end.

Definition rows (ids : list string) (embeddings : list vector)
    (documents : list string) (metadatas : list (list (string * string)))
    : list Entry :=
  zip_with (fun ie dm => mkEntry (fst ie) (snd ie) (fst dm) (snd dm))
    (zip ids embeddings) (zip documents metadatas).

(** The checks [collection.add] makes before it writes: a non-empty
    batch, as many embeddings, documents and metadatas as ids, and ids
    that are new and pairwise distinct. *)
Definition validate (ids : list string) (embeddings : list vector)
    (documents : list string) (metadatas : list (list (string * string)))
    (existing : list Entry) : option index_fault :=
  if bool_decide (ids = []) then Some EmptyBatch
  else if negb (Nat.eqb (length embeddings) (length ids)
                && Nat.eqb (length documents) (length ids)
                && Nat.eqb (length metadatas) (length ids))
  then Some InconsistentLengths
  else if negb (bool_decide (NoDup (map entry_id existing ++ ids)))
  then Some DuplicateID
  else None.

(** [collection.add(ids=..., embeddings=..., documents=..., metadatas=...)]:
    all rows are written or none. *)
Definition add (coll : string) (ids : list string) (embeddings : list vector)
    (documents : list string) (metadatas : list (list (string * string)))
    : M unit :=
  fun w =>
    match vector_db w !! coll with
    | None => (Raise (IndexError (CollectionNotFound coll)), w)
    | Some existing =>
        match validate ids embeddings documents metadatas existing with
        | Some fault => (Raise (IndexError fault), w)
        | None =>
            (Return tt,
             set_vector_db
               (<[coll := existing ++ rows ids embeddings documents metadatas]>
                  (vector_db w)) w)
        end
    end.

(** [collection.query(query_texts=[...], n_results=k)]: the collection's
    embedding function embeds the query texts, then the store ranks its
    rows; the result's ["documents"] holds one list per query text. *)
Definition query (ex : Externals) (coll : string) (query_texts : list string)
    (n_results : Z) : M (option (list (list string))) :=
  fun w =>
    match vector_db w !! coll with
    | None => (Raise (IndexError (CollectionNotFound coll)), w)
    | Some entries =>
        let w' := set_embed_log (embed_log w ++ [query_texts]) w in
        match embed_remote ex (embed_log w) query_texts with
        | Failed msg => (Raise (ProviderError msg), w')
        | Replied vectors =>
            match search ex entries vectors n_results with
            | Failed msg => (Raise (IndexError (SearchFailed msg)), w')
            | Replied documents => (Return documents, w')
            end
        end
    end.

End Chroma.

(** ** [src/rag/knowledge_base.py] *)

(** [OpenAIEmbeddings(model=EMBEDDING_MODEL).embed_documents(texts)]: one
    call of the embedding provider, which answers for all the texts or
    fails; a failure is raised. *)
Definition embed_documents (ex : Externals) (texts : list string) : M (list vector) :=
  fun w =>
    let w' := set_embed_log (embed_log w ++ [texts]) w in
    match embed_remote ex (embed_log w) texts with
    | Failed msg => (Raise (ProviderError msg), w')
    | Replied vectors => (Return vectors, w')
    end.

(** One pass of the loop over [json_files]: a decoded file becomes a
    document, a [json.JSONDecodeError] is reported and skipped, any
    other error propagates. *)
Definition load_one (file : string * FileRead) (all_docs : list Document)
    : M (list Document) :=
  match snd file with
  | Parsed data =>
      let content_string := Json.dumps_indent2 data in
      let doc := mkDocument content_string [("source", fst file)] in
      ret (all_docs ++ [doc])
  | Malformed =>
      print ("Warning: Could not decode JSON from " +:+ fst file +:+ ". Skipping.")
      >> ret all_docs
  | Unreadable msg => raise (FileError msg)
  end.

Fixpoint load_files (json_files : list (string * FileRead))
    (all_docs : list Document) : M (list Document) :=
  match json_files with
  | [] => ret all_docs
  | file :: rest => do docs <- load_one file all_docs ; load_files rest docs
  end.

(** [load_documents_from_json_dir(FINAL_JSON_DIR)]; the directory's
    [*.json] files are [final_json_dir], in the order [glob] lists them. *)
Definition load_documents_from_json_dir : M (list Document) :=
  fun w =>
    match final_json_dir w with
    | None => (Return [], w)
    | Some json_files => load_files json_files [] w
    end.

(** [range(0, n, step)] *)
Definition range_step (n step : nat) : list nat :=
  map (fun k => k * step) (seq 0 ((n + step - 1) / step)).

(** [f"doc_{n}"] *)
Definition doc_id (n : nat) : string := "doc_" +:+ pretty n.

(** [[f"doc_{current_count + j}" for j in range(n)]] *)
Definition fresh_ids (current_count n : nat) : list string :=
  map (fun j => doc_id (current_count + j)) (seq 0 n).

(** The body of the batch loop of [create_knowledge_base]. *)
Definition ingest_batch (ex : Externals) (collection : string)
    (documents : list Document) (i : nat) : M unit :=
  let batch_docs := take EMBEDDING_BATCH_SIZE (drop i documents) in
  let batch_num := i / EMBEDDING_BATCH_SIZE + 1 in
  let total_batches :=
    (length documents + EMBEDDING_BATCH_SIZE - 1) / EMBEDDING_BATCH_SIZE in
  print ("Processing batch " +:+ pretty batch_num +:+ "/"
         +:+ pretty total_batches +:+ "...") >>
  let page_contents := map page_content batch_docs in
  do batch_embeddings <- embed_documents ex page_contents ;
  do current_count <- Chroma.count collection ;
  let ids := fresh_ids current_count (length batch_docs) in
  Chroma.add collection ids batch_embeddings page_contents
    (map metadata batch_docs).

Definition create_knowledge_base (ex : Externals)
    (documents : option (list Document)) : M unit :=
  do api_key <- getenv "OPENAI_API_KEY" ;
  if falsy_str api_key then raise ConfigError
  else
    do documents <- match documents with
                    | None => load_documents_from_json_dir
                    | Some docs => ret docs
                    end ;
    match documents with
    | [] => print "No documents to embed."
    | _ :: _ =>
        do collection <- Chroma.get_or_create_collection COLLECTION_NAME ;
        print ("Populating database with " +:+ pretty (length documents)
               +:+ " documents in batches...") >>
        for_ (range_step (length documents) EMBEDDING_BATCH_SIZE)
             (ingest_batch ex collection documents) >>
        do total <- Chroma.count collection ;
        print ("Database populated. Total documents: " +:+ pretty total)
    end.

(** The document [update_knowledge_base] builds from one record. *)
Definition record_document (ex : Externals) (final_json : Json.record) : Document :=
  mkDocument
    (Json.dumps_indent2 (Json.JDict final_json))
    [("source",
      Json.format_value (container_repr ex) (Json.get "documentId" final_json)
      +:+ ".json")].

Definition update_knowledge_base (ex : Externals)
    (final_json_list : list Json.record) : M unit :=
  match final_json_list with
  | [] => ret tt
  | _ :: _ =>
      do api_key <- getenv "OPENAI_API_KEY" ;
      if falsy_str api_key then raise ConfigError
      else
        do collection <- Chroma.get_or_create_collection COLLECTION_NAME ;
        let docs_to_ingest := map (record_document ex) final_json_list in
        match docs_to_ingest with
        | [] => ret tt
        | _ :: _ =>
            let page_contents := map page_content docs_to_ingest in
            do embeddings <- embed_documents ex page_contents ;
            do current_count <- Chroma.count collection ;
            let ids := fresh_ids current_count (length docs_to_ingest) in
            Chroma.add collection ids embeddings page_contents
              (map metadata docs_to_ingest) >>
            print ("Added " +:+ pretty (length docs_to_ingest)
                   +:+ " new document(s) to knowledge base.")
        end
  end.

(** [results["documents"][0] if results.get("documents") else []] *)
Definition first_documents (documents : option (list (list string))) : list string :=
  match documents with
  | Some (first :: _) => first
  | _ => []
  end.

Definition query_knowledge_base (ex : Externals) (query_text : string)
    (n_results : Z) : M (list string) :=
  do api_key <- getenv "OPENAI_API_KEY" ;
  if falsy_str api_key then raise ConfigError
  else
    do collection <- Chroma.get_collection COLLECTION_NAME ;
    do results <- Chroma.query ex collection [query_text] n_results ;
    ret (first_documents results).

(** ** [generate_answer] of [app.py] *)

(** [OpenAI()]: the client takes its key from the environment and
    refuses to be built without one. *)
Definition OpenAI : M unit :=
  do api_key <- getenv "OPENAI_API_KEY" ;
  match api_key with
  | None => raise (OpenAIError "The api_key client option must be set")
  | Some _ => ret tt
  end.

(** [client.chat.completions.create(...).choices[0].message.content] *)
Definition chat_completions_create (ex : Externals) (request : ChatRequest)
    : M string :=
  fun w =>
    let w' := set_chat_log (chat_log w ++ [request]) w in
    match chat_remote ex (chat_log w) request with
    | Failed msg => (Raise (GenerationError msg), w')
    | Replied content => (Return content, w')
    end.

Definition NO_DOCUMENTS_ANSWER : string :=
  "I couldn't find any relevant documents to answer that.".

Definition CONTEXT_SEPARATOR : string :=
  Py.LF +:+ Py.LF +:+ "---" +:+ Py.LF +:+ Py.LF.

Definition system_prompt : string :=
  "You are an expert Q&A system. Answer the user's question based ONLY on "
  +:+ "the provided context documents. If the answer isn't in the context, say so.".

Definition user_prompt (context_str query_text : string) : string :=
  "CONTEXT DOCUMENTS:" +:+ Py.LF +:+ context_str +:+ Py.LF +:+ Py.LF
  +:+ "USER'S QUESTION:" +:+ Py.LF +:+ query_text +:+ Py.LF +:+ Py.LF
  +:+ "ANSWER:".

(** The request [generate_answer] sends for a query and its contexts. *)
Definition answer_request (query_text : string) (retrieved_docs : list string)
    : ChatRequest :=
  let context_str := Py.join CONTEXT_SEPARATOR retrieved_docs in
  mkChatRequest "gpt-4o"
    [("system", system_prompt); ("user", user_prompt context_str query_text)]
    0%Q.

Definition generate_answer (ex : Externals) (query_text : string)
    (retrieved_docs : list string) : M string :=
  match retrieved_docs with
  | [] => ret NO_DOCUMENTS_ANSWER
  | _ :: _ =>
      OpenAI >>
      chat_completions_create ex (answer_request query_text retrieved_docs)
  end.

(** ** Derived notions used in the statements *)

(** The rows of the deployment's collection; none before it is created. *)
Definition entries (w : World) : list Entry :=
  default [] (vector_db w !! COLLECTION_NAME).

(** [collection.count()] as an observer would read it. *)
Definition collection_count (w : World) : nat := length (entries w).

Definition ids_of (rows : list Entry) : list string := map entry_id rows.

(** The credential is present: [os.getenv] gives a non-empty string. *)
Definition credential_set (w : World) : Prop :=
  falsy_str (environ w !! "OPENAI_API_KEY") = false.

Definition credential_absent (w : World) : Prop :=
  falsy_str (environ w !! "OPENAI_API_KEY") = true.

(** The ids of a collection filled by this module alone: [doc_0],
    [doc_1], ... in the order the rows were written. *)
Definition sequential_ids (rows : list Entry) : Prop :=
  ids_of rows = fresh_ids 0 (length rows).

(** What the statements about ingestion talk about: a run from [w] to [w']
    that appended [new_rows] to the deployment's collection and sent
    [requests] to the embedding endpoint, and touched neither another
    collection, nor the environment, the record directory or the chat
    endpoint. *)
Definition grows (w w' : World) (new_rows : list Entry)
    (requests : list (list string)) : Prop :=
  entries w' = entries w ++ new_rows
  ∧ (∀ name, name ≠ COLLECTION_NAME → vector_db w' !! name = vector_db w !! name)
  ∧ embed_log w' = embed_log w ++ requests
  ∧ environ w' = environ w
  ∧ final_json_dir w' = final_json_dir w
  ∧ chat_log w' = chat_log w.

Definition texts_of (batch : list Document) : list string := map page_content batch.

(** [documents[i:i + EMBEDDING_BATCH_SIZE]] *)
Definition slice (documents : list Document) (i : nat) : list Document :=
  take EMBEDDING_BATCH_SIZE (drop i documents).

(** The slices the loop of [create_knowledge_base] goes through, in the
    order it does. *)
Definition batches_of (documents : list Document) : list (list Document) :=
  map (slice documents) (range_step (length documents) EMBEDDING_BATCH_SIZE).

(** The rows written for a sequence of batches and the embeddings
    returned for each, the first batch's ids starting at [start]. *)
Fixpoint batch_rows (start : nat) (batches : list (list Document))
    (vectors : list (list vector)) : list Entry :=
  match batches, vectors with
  | b :: bs, vs :: vss =>
      Chroma.rows (fresh_ids start (length b)) vs (texts_of b) (map metadata b)
      ++ batch_rows (start + length b) bs vss
  | _, _ => []
  end.

(** What [create_knowledge_base] does with one batch and
    [update_knowledge_base] with all its documents: embed the texts,
    read the count, derive the ids from it, append. *)
Definition embed_and_add (ex : Externals) (collection : string)
    (batch : list Document) : M unit :=
  do embeddings <- embed_documents ex (texts_of batch) ;
  do current_count <- Chroma.count collection ;
  Chroma.add collection (fresh_ids current_count (length batch)) embeddings
    (texts_of batch) (map metadata batch).

(** The embedding endpoint, asked for the texts of the batches one
    after the other with [log] already answered, replied [vectors]: a
    list of embeddings per batch, one embedding per text. *)
Fixpoint answered (ex : Externals) (log : list (list string))
    (batches : list (list Document)) (vectors : list (list vector)) : Prop :=
  match batches, vectors with
  | [], [] => True
  | b :: bs, vs :: vss =>
      embed_remote ex log (texts_of b) = Replied vs
      ∧ length vs = length b
      ∧ answered ex (log ++ [texts_of b]) bs vss
  | _, _ => False
  end.



(** A call of one of the two ingest entry points. *)
Inductive ingest_call : Type :=
| CreateKB (documents : option (list Document))
| UpdateKB (final_json_list : list Json.record).

Definition run_call (ex : Externals) (call : ingest_call) : M unit :=
  match call with
  | CreateKB documents => create_knowledge_base ex documents
  | UpdateKB final_json_list => update_knowledge_base ex final_json_list
  end.

(** The calls, one after the other. *)
Definition run_calls (ex : Externals) (calls : list ingest_call) : M unit :=
  for_ calls (run_call ex).

(** The documents the record directory yields: one per decodable file. *)
Fixpoint parsed_files (json_files : list (string * FileRead)) : list Document :=
  match json_files with
  | [] => []
  | (name, Parsed data) :: rest =>
      mkDocument (Json.dumps_indent2 data) [("source", name)] :: parsed_files rest
  | _ :: rest => parsed_files rest
  end.

(** The documents a call of [create_knowledge_base] works on: the ones
    it is given, or the ones the record directory yields. *)
Definition resolved (documents : option (list Document)) (w : World)
    : list Document :=
  match documents with
  | Some docs => docs
  | None => parsed_files (default [] (final_json_dir w))
  end.

(** The number of records a call hands to the collection. *)
Definition records_of (call : ingest_call) (w : World) : nat :=
  match call with
  | CreateKB documents => length (resolved documents w)
  | UpdateKB final_json_list => length final_json_list
  end.

(** ** [config/settings.py]: the environment check and the directories *)

Definition REQUIRED_ENV_VARS : list string :=
  ["OPENAI_API_KEY"; "VISION_AGENT_API_KEY"].

(** [[var for var in REQUIRED_ENV_VARS if not os.getenv(var)]] *)
Definition missing_vars (w : World) : list string :=
  List.filter (fun var => falsy_str (environ w !! var)) REQUIRED_ENV_VARS.

Definition validate_environment : M bool :=
  fun w =>
    match missing_vars w with
    | [] => (Return true, w)
    | missing =>
        (Raise (ValueError ("Missing required environment variables: "
                            +:+ Py.join ", " missing)), w)
    end.

Definition SOURCE_PDF_DIR : string := "source_pdfs".
Definition CORRECTED_PDF_DIR : string := "corrected_pdfs".
Definition GENERIC_JSON_DIR : string := "generic_json_outputs".
Definition FINAL_JSON_DIR : string := "final_json_outputs".
Definition REVIEW_DIR : string := "manual_review_needed".
Definition VECTOR_DB_DIR : string := "vector_db".

(** The project root on disk: the directories directly under it, by
    name, each with the set of the names of its entries.  A failure of
    the file system itself (permissions, a full disk) is outside the
    model. *)
Module Disk.

(** [directory.exists()] *)
Definition exists_ (directory : string) (disk : gmap string (gset string)) : bool :=
  bool_decide (is_Some (disk !! directory)).

(** [directory.mkdir(parents=True, exist_ok=True)] *)
Definition mkdir (directory : string) (disk : gmap string (gset string))
    : gmap string (gset string) :=
  match disk !! directory with
  | Some _ => disk
  | None => <[directory := ∅]> disk
  end.

(** [shutil.rmtree(directory)] *)
Definition rmtree (directory : string) (disk : gmap string (gset string))
    : gmap string (gset string) :=
  delete directory disk.

(** [path.exists()] for the file [name] of [directory] *)
Definition file_exists (directory name : string)
    (disk : gmap string (gset string)) : bool :=
  bool_decide (name ∈ default ∅ (disk !! directory)).

(** [shutil.move(directory / name, target / name)], the target
    directory being there: the file leaves [directory] and is in
    [target], replacing a file of that name. *)
Definition move (directory name target : string)
    (disk : gmap string (gset string)) : gmap string (gset string) :=
  let removed := <[directory := default ∅ (disk !! directory) ∖ {[name]}]> disk in
  <[target := default ∅ (removed !! target) ∪ {[name]}]> removed.

End Disk.

(** [for directory in directories: directory.mkdir(parents=True, exist_ok=True)] *)
Definition ensure_directories (disk : gmap string (gset string))
    : gmap string (gset string) :=
  foldl (fun acc directory => Disk.mkdir directory acc) disk
    [SOURCE_PDF_DIR; CORRECTED_PDF_DIR; GENERIC_JSON_DIR;
     FINAL_JSON_DIR; REVIEW_DIR; VECTOR_DB_DIR].

(** ** [app.py]: clearing the intermediate folders, answering a query *)

Definition cleanup_intermediate_folders (disk : gmap string (gset string))
    : gmap string (gset string) :=
  foldl (fun acc directory =>
           Disk.mkdir directory
             (if Disk.exists_ directory acc then Disk.rmtree directory acc
              else acc))
        disk [SOURCE_PDF_DIR; CORRECTED_PDF_DIR; GENERIC_JSON_DIR].

(** The query tab: [if query:] retrieve with the default number of
    results, then generate the answer; [None] when there is no query. *)
Definition answer_query (ex : Externals) (query : string) : M (option string) :=
  if String.eqb query "" then ret None
  else
    do retrieved <- query_knowledge_base ex query 15 ;
    do answer <- generate_answer ex query retrieved ;
    ret (Some answer).

(** ** [src/pipeline/qc_checker.py] *)

(** [check_single_document(json_data, pdf_path, status_callback)], the
    PDF being the file [pdf_name] of [pdf_dir].  A status callback, when
    one is given, receives the messages; [log] collects them.  The
    result is the returned flag, the disk and the log. *)
Definition check_single_document (ex : Externals) (json_data : Json.record)
    (pdf_dir pdf_name : string) (status_callback : bool)
    (disk : gmap string (gset string)) (log : list string)
    : bool * gmap string (gset string) * list string :=
  match Json.get "_qc_flag" json_data with
  | Some (Json.JBool true) =>
      let disk := Disk.mkdir REVIEW_DIR disk in
      let reason :=
        match Json.get "_qc_reason" json_data with
        | Some v => v
        | None => Json.JStr "No reason specified"
        end in
      let log :=
        if status_callback
        then log ++ ["QC Flag: "
                     +:+ Json.format_value (container_repr ex) (Some reason)]
        else log in
      if Disk.file_exists pdf_dir pdf_name disk
      then (true, Disk.move pdf_dir pdf_name REVIEW_DIR disk, log)
      else (true, disk, log)
  | _ => (false, disk, log)
  end.

(** ** Notions for the further properties *)

(** Every [*.json] file of the listing either decodes or is malformed
    JSON: reading none of them raises anything but
    [json.JSONDecodeError]. *)
Definition unreadable_free (json_files : list (string * FileRead)) : Prop :=
  Forall (fun file => ∀ msg, snd file ≠ Unreadable msg) json_files.

(** The warnings the loader prints: one per malformed file, in order. *)
Fixpoint warnings (json_files : list (string * FileRead)) : list string :=
  match json_files with
  | [] => []
  | (name, Malformed) :: rest =>
      ("Warning: Could not decode JSON from " +:+ name +:+ ". Skipping.")
      :: warnings rest
  | _ :: rest => warnings rest
  end.

(** Why one batch did not go through: the provider failed, or it
    returned a number of embeddings other than the number of texts, or
    one of the ids derived from the count is already taken.  Nothing is
    written in any of these cases. *)
Inductive batch_failure (ex : Externals) (batch : list Document) (w : World)
    : exn -> Prop :=
| provider_failed msg :
    embed_remote ex (embed_log w) (texts_of batch) = Failed msg →
    batch_failure ex batch w (ProviderError msg)
| wrong_number_of_embeddings vs :
    embed_remote ex (embed_log w) (texts_of batch) = Replied vs →
    length vs ≠ length batch →
    batch_failure ex batch w (IndexError InconsistentLengths)
| id_taken vs :
    embed_remote ex (embed_log w) (texts_of batch) = Replied vs →
    ¬ NoDup (ids_of (entries w) ++ fresh_ids (length (entries w)) (length batch)) →
    batch_failure ex batch w (IndexError DuplicateID).


(** Reading the [*.json] files of the record directory, if there is
    one, raises nothing but [json.JSONDecodeError]. *)
Definition directory_readable (w : World) : Prop :=
  match final_json_dir w with
  | None => True
  | Some json_files => unreadable_free json_files
  end.

(** ** Test doubles and sample data *)

Module Sample.

Definition embed_by_length (texts : list string) : list vector :=
  map (fun t => [Z.of_nat (String.length t)]) texts.

Definition first_k (rows : list Entry) (n_results : Z) : list string :=
  map entry_document (take (Z.to_nat n_results) rows).

(** Services that always answer. *)
Definition reliable : Externals :=
  mkExternals
    (fun _ => "<container>")
    (fun _ texts => Replied (embed_by_length texts))
    (fun _ _ => Replied "canned answer")
    (fun rows _ k => Replied (Some [first_k rows k])).



(** A deployment on which nothing was ingested yet. *)
Definition fresh (key : option string) (dir : option (list (string * FileRead)))
    : World :=
  mkWorld
    (match key with
     | Some k => {[ "OPENAI_API_KEY" := k ]}
     | None => ∅
     end)
    dir ∅ [] [] [].

Definition configured : World := fresh (Some "sk-test") None.
Definition unconfigured : World := fresh None None.


Definition record_A : Json.record :=
  [("documentId", Json.JStr "A"); ("totalUsage", Json.JInt 100)].
Definition record_B : Json.record :=
  [("documentId", Json.JStr "B"); ("totalUsage", Json.JInt 200)].
Definition record_anonymous : Json.record :=
  [("totalUsage", Json.JInt 7)].

Definition numbered_document (n : nat) : Document :=
  mkDocument ("text " +:+ pretty n) [("source", pretty n +:+ ".json")].

(** [n] documents, in order. *)
Definition documents (n : nat) : list Document :=
  map numbered_document (seq 0 n).

(** An incremental update, a rebuild from three documents, and another
    incremental update. *)
Definition three_calls : list ingest_call :=
  [UpdateKB [record_A; record_B];
   CreateKB (Some (documents 3));
   UpdateKB [record_anonymous]].

(** A configured deployment whose record directory holds two records
    and, between them, a file that is not JSON. *)
Definition mixed_directory : World :=
  fresh (Some "sk-test")
    (Some [("A.json", Parsed (Json.JDict record_A));
           ("broken.json", Malformed);
           ("B.json", Parsed (Json.JDict record_B))]).

(** The same with a file that is not UTF-8 text in the middle. *)
Definition unreadable_directory : World :=
  fresh (Some "sk-test")
    (Some [("A.json", Parsed (Json.JDict record_A));
           ("latin1.json", Unreadable "invalid start byte");
           ("B.json", Parsed (Json.JDict record_B))]).

(** A deployment with both required variables set. *)
Definition validated : World :=
  mkWorld {[ "OPENAI_API_KEY" := "sk-test"; "VISION_AGENT_API_KEY" := "va-test" ]}
    None ∅ [] [] [].

(** A record the extraction flagged for review, and one whose flag is
    the string ["true"], not the boolean. *)
Definition record_flagged : Json.record :=
  [("documentId", Json.JStr "A"); ("_qc_flag", Json.JBool true);
   ("_qc_reason", Json.JStr "low confidence")].
Definition record_flag_as_text : Json.record :=
  [("documentId", Json.JStr "B"); ("_qc_flag", Json.JStr "true")].

(** Two source PDFs and nothing else on the disk. *)
Definition inbox : gmap string (gset string) :=
  {[ SOURCE_PDF_DIR := {[ "A.pdf"; "B.pdf" ]} ]}.

End Sample.

(** * Properties *)

(** ** The monad *)

Section Monad_facts.
Context {A B : Type}.

Lemma bind_returns (c : M A) (k : A -> M B) w b w' :
  bind c k w = (Return b, w') →
  ∃ a w1, c w = (Return a, w1) ∧ k a w1 = (Return b, w').
Proof.
  unfold bind. destruct (c w) as [[a|e] w1]; intros H.
  - by exists a, w1.
  - discriminate.
Qed.

Lemma bind_step (c : M A) (k : A -> M B) w a w1 :
  c w = (Return a, w1) → bind c k w = k a w1.
Proof. unfold bind. by intros ->. Qed.

Lemma bind_raises (c : M A) (k : A -> M B) w e w1 :
  c w = (Raise e, w1) → bind c k w = (Raise e, w1).
Proof. unfold bind. by intros ->. Qed.
End Monad_facts.

Lemma for__app {A : Type} (xs ys : list A) (body : A -> M unit) w :
  for_ (xs ++ ys) body w =
  match for_ xs body w with
  | (Return _, w1) => for_ ys body w1
  | (Raise e, w1) => (Raise e, w1)
  end.
Proof.
  revert w. induction xs as [|x xs IH]; intros w; simpl; [done|].
  unfold bind. destruct (body x w) as [[[]|e] w1]; [apply IH|done].
Qed.

Lemma getenv_run name w : getenv name w = (Return (environ w !! name), w).
Proof. done. Qed.

(** ** Query before create (C4, C9) and the credential check (C5) *)

Lemma query_without_collection ex q k w :
  credential_set w →
  vector_db w !! COLLECTION_NAME = None →
  query_knowledge_base ex q k w
  = (Raise (IndexError (CollectionNotFound COLLECTION_NAME)), w).
Proof.
  intros Hkey Hnone. unfold query_knowledge_base.
  rewrite (bind_step _ _ _ _ _ (getenv_run _ w)).
  unfold credential_set in Hkey. rewrite Hkey.
  apply bind_raises. unfold Chroma.get_collection. by rewrite Hnone.
Qed.

Lemma query_without_credential ex q k w :
  credential_absent w →
  query_knowledge_base ex q k w = (Raise ConfigError, w).
Proof.
  intros Hkey. unfold query_knowledge_base.
  rewrite (bind_step _ _ _ _ _ (getenv_run _ w)).
  unfold credential_absent in Hkey. by rewrite Hkey.
Qed.

Lemma create_without_credential ex documents w :
  credential_absent w →
  create_knowledge_base ex documents w = (Raise ConfigError, w).
Proof.
  intros Hkey. unfold create_knowledge_base.
  rewrite (bind_step _ _ _ _ _ (getenv_run _ w)).
  unfold credential_absent in Hkey. by rewrite Hkey.
Qed.

Lemma update_without_credential ex final_json_list w :
  credential_absent w →
  final_json_list ≠ [] →
  update_knowledge_base ex final_json_list w = (Raise ConfigError, w).
Proof.
  intros Hkey Hne. unfold update_knowledge_base.
  destruct final_json_list as [|r rs]; [done|].
  rewrite (bind_step _ _ _ _ _ (getenv_run _ w)).
  unfold credential_absent in Hkey. by rewrite Hkey.
Qed.

Lemma update_empty ex w : update_knowledge_base ex [] w = (Return tt, w).
Proof. done. Qed.

(** C4. In a configured deployment, a query against a collection no
    ingest has created raises the store's missing-collection error, for
    every query text and every result count, and leaves the world as it
    was; whatever the configuration, such a query never returns a list
    (so never the empty one). *)
Theorem query_before_create_fails ex q k w :
  vector_db w !! COLLECTION_NAME = None →
  (credential_set w →
   query_knowledge_base ex q k w
   = (Raise (IndexError (CollectionNotFound COLLECTION_NAME)), w))
  ∧ (∀ texts, fst (query_knowledge_base ex q k w) ≠ Return texts).
Proof.
  intros Hnone. split.
  - intros Hkey. by apply query_without_collection.
  - intros texts.
    destruct (falsy_str (environ w !! "OPENAI_API_KEY")) eqn:Hkey.
    + by rewrite query_without_credential.
    + by rewrite query_without_collection.
Qed.

(** C5, as amended. With the credential absent, [create_knowledge_base]
    raises the configuration error whatever documents it is given
    (none, the empty list, any list), and [update_knowledge_base] raises
    it for every non-empty record list; in both cases the world is left
    untouched.  [update_knowledge_base] on the empty list returns before
    it looks at the credential. *)
Theorem missing_credential_is_fatal ex w :
  credential_absent w →
  (∀ documents, create_knowledge_base ex documents w = (Raise ConfigError, w))
  ∧ (∀ final_json_list, final_json_list ≠ [] →
       update_knowledge_base ex final_json_list w = (Raise ConfigError, w))
  ∧ update_knowledge_base ex [] w = (Return tt, w).
Proof.
  intros Hkey. split; [|split].
  - intros documents. by apply create_without_credential.
  - intros l Hl. by apply update_without_credential.
  - apply update_empty.
Qed.

Lemma query_before_create_fails_witness :
  vector_db Sample.configured !! COLLECTION_NAME = None
  ∧ credential_set Sample.configured
  ∧ query_knowledge_base Sample.reliable "totalUsage" 15 Sample.configured
    = (Raise (IndexError (CollectionNotFound COLLECTION_NAME)), Sample.configured).
Proof.
  assert (Hnone : vector_db Sample.configured !! COLLECTION_NAME = None)
    by reflexivity.
  assert (Hkey : credential_set Sample.configured) by reflexivity.
  split; [exact Hnone|]. split; [exact Hkey|].
  exact (proj1 (query_before_create_fails Sample.reliable "totalUsage" 15
                  Sample.configured Hnone) Hkey).
Defined.

Lemma missing_credential_is_fatal_witness :
  credential_absent Sample.unconfigured
  ∧ create_knowledge_base Sample.reliable (Some (Sample.documents 3))
      Sample.unconfigured
    = (Raise ConfigError, Sample.unconfigured)
  ∧ update_knowledge_base Sample.reliable [Sample.record_A] Sample.unconfigured
    = (Raise ConfigError, Sample.unconfigured).
Proof.
  assert (Hkey : credential_absent Sample.unconfigured) by reflexivity.
  destruct (missing_credential_is_fatal Sample.reliable Sample.unconfigured Hkey)
    as (Hcreate & Hupdate & _).
  split; [exact Hkey|]. split.
  - exact (Hcreate (Some (Sample.documents 3))).
  - apply Hupdate. discriminate.
Defined.

(** C5 as stated fails: with no credential in the environment,
    [update_knowledge_base] on the empty list returns normally. *)
Lemma update_empty_ignores_missing_credential :
  credential_absent Sample.unconfigured
  ∧ update_knowledge_base Sample.reliable [] Sample.unconfigured
    = (Return tt, Sample.unconfigured)
  ∧ fst (update_knowledge_base Sample.reliable [] Sample.unconfigured)
    ≠ Raise ConfigError.
Proof. split; [reflexivity|]. split; [reflexivity|discriminate]. Qed.

(** ** Empty input (C6, C9) *)

Lemma load_files_only_prints json_files docs w :
  ∃ out, snd (load_files json_files docs w) = set_stdout out w.
Proof.
  revert docs w. induction json_files as [|[name [data| |msg]] rest IH];
    intros docs w; simpl.
  - exists (stdout w). by destruct w.
  - unfold bind, load_one; simpl. apply IH.
  - unfold bind, load_one; simpl.
    destruct (IH docs (set_stdout
      (stdout w ++ ["Warning: Could not decode JSON from " +:+ name
                    +:+ ". Skipping."]) w)) as [out Hout].
    exists out. by rewrite Hout.
  - exists (stdout w). by destruct w.
Qed.

Lemma load_only_prints w :
  ∃ out, snd (load_documents_from_json_dir w) = set_stdout out w.
Proof.
  unfold load_documents_from_json_dir. destruct (final_json_dir w) as [files|].
  - apply load_files_only_prints.
  - exists (stdout w). by destruct w.
Qed.



(** With the credential set and nothing loaded from the directory,
    [create_knowledge_base] only prints. *)
Lemma create_nothing_loaded ex w :
  credential_set w →
  fst (load_documents_from_json_dir w) = Return [] →
  ∃ out, create_knowledge_base ex None w = (Return tt, set_stdout out w).
Proof.
  intros Hkey Hload. unfold create_knowledge_base.
  rewrite (bind_step _ _ _ _ _ (getenv_run _ w)).
  unfold credential_set in Hkey. rewrite Hkey.
  destruct (load_only_prints w) as [out Hout].
  destruct (load_documents_from_json_dir w) as [r w1] eqn:Hrun.
  simpl in Hload, Hout. subst r w1.
  rewrite (bind_step _ _ _ _ _ Hrun). unfold print.
  by eexists.
Qed.

(** Whatever the credential, with nothing loaded from the directory
    [create_knowledge_base] changes at most the standard output. *)
Lemma create_nothing_loaded_world ex w :
  fst (load_documents_from_json_dir w) = Return [] →
  ∃ out, snd (create_knowledge_base ex None w) = set_stdout out w.
Proof.
  intros Hload.
  destruct (falsy_str (environ w !! "OPENAI_API_KEY")) eqn:Hkey.
  - rewrite create_without_credential by done. exists (stdout w). by destruct w.
  - destruct (create_nothing_loaded ex w Hkey Hload) as [out Hrun].
    exists out. by rewrite Hrun.
Qed.



(** C9. When the record directory is missing or yields no document,
    [create_knowledge_base] leaves the vector store as it was: the
    collection is neither opened nor created.  In a configured
    deployment the call returns normally, and if there was no collection
    yet, a query after the call still raises the store's
    missing-collection error, for every query text and result count. *)
Theorem create_without_documents_creates_nothing ex w :
  final_json_dir w = None ∨ fst (load_documents_from_json_dir w) = Return [] →
  vector_db (snd (create_knowledge_base ex None w)) = vector_db w
  ∧ (credential_set w →
     fst (create_knowledge_base ex None w) = Return tt
     ∧ (vector_db w !! COLLECTION_NAME = None →
        ∀ q k,
          query_knowledge_base ex q k (snd (create_knowledge_base ex None w))
          = (Raise (IndexError (CollectionNotFound COLLECTION_NAME)),
             snd (create_knowledge_base ex None w)))).
Proof.
  intros Hdir.
  assert (Hload : fst (load_documents_from_json_dir w) = Return []).
  { destruct Hdir as [Hnone|]; [|done].
    unfold load_documents_from_json_dir. by rewrite Hnone. }
  destruct (create_nothing_loaded_world ex w Hload) as [out Hworld].
  rewrite Hworld. split; [done|]. intros Hkey.
  destruct (create_nothing_loaded ex w Hkey Hload) as [out' Hrun].
  rewrite Hrun. split; [done|].
  intros Hfresh q k. by apply query_without_collection.
Qed.

Lemma create_without_documents_creates_nothing_witness :
  credential_set Sample.configured
  ∧ final_json_dir Sample.configured = None
  ∧ fst (create_knowledge_base Sample.reliable None Sample.configured)
    = Return tt
  ∧ fst (query_knowledge_base Sample.reliable "totalUsage" 15
           (snd (create_knowledge_base Sample.reliable None Sample.configured)))
    = Raise (IndexError (CollectionNotFound COLLECTION_NAME)).
Proof.
  assert (Hkey : credential_set Sample.configured) by reflexivity.
  split; [exact Hkey|]. split; [reflexivity|].
  destruct (proj2 (create_without_documents_creates_nothing Sample.reliable
                     Sample.configured (or_introl eq_refl)) Hkey)
    as [Hret Hquery].
  split; [exact Hret|].
  rewrite (Hquery eq_refl "totalUsage" 15%Z). reflexivity.
Defined.

(** ** The answer generator (C8) *)

Lemma OpenAI_run w :
  is_Some (environ w !! "OPENAI_API_KEY") → OpenAI w = (Return tt, w).
Proof.
  intros [key Hkey]. unfold OpenAI.
  rewrite (bind_step _ _ _ _ _ (getenv_run _ w)). by rewrite Hkey.
Qed.



(** ** Serialization (C2) *)







(** ** Ids derived from the count *)

#[local] Instance doc_id_inj : Inj (=) (=) doc_id.
Proof.
  intros a b H. apply (inj pretty). revert H. unfold doc_id.
  generalize (pretty a) (pretty b). intros s t H. simpl in H. by injection H.
Qed.

Lemma fresh_ids_seq c n : fresh_ids c n = map doc_id (seq c n).
Proof.
  unfold fresh_ids. transitivity (map doc_id (Nat.add c <$> seq 0 n)).
  - by rewrite <-list_fmap_compose.
  - by rewrite fmap_add_seq, Nat.add_0_r.
Qed.

Lemma fresh_ids_length c n : length (fresh_ids c n) = n.
Proof. unfold fresh_ids. by rewrite length_map, length_seq. Qed.

Lemma fresh_ids_app c a b :
  fresh_ids c (a + b) = fresh_ids c a ++ fresh_ids (c + a) b.
Proof. by rewrite !fresh_ids_seq, seq_app, map_app. Qed.

Lemma fresh_ids_NoDup c n : NoDup (fresh_ids c n).
Proof.
  rewrite fresh_ids_seq. apply (NoDup_fmap_2 doc_id), NoDup_seq.
Qed.

Lemma fresh_ids_nil c n : fresh_ids c n = [] → n = 0.
Proof. intros H. by rewrite <-(fresh_ids_length c n), H. Qed.

Lemma sequential_ids_app rows new :
  sequential_ids rows →
  ids_of new = fresh_ids (length rows) (length new) →
  sequential_ids (rows ++ new).
Proof.
  unfold sequential_ids, ids_of. intros Hrows Hnew.
  by rewrite map_app, length_app, fresh_ids_app, Hrows, Hnew.
Qed.

Lemma sequential_ids_NoDup rows : sequential_ids rows → NoDup (ids_of rows).
Proof. unfold sequential_ids. intros ->. apply fresh_ids_NoDup. Qed.

(** ** Rows and the checks of [collection.add] *)

Lemma rows_columns ids embeddings documents metadatas :
  length embeddings = length ids →
  length documents = length ids →
  length metadatas = length ids →
  ids_of (Chroma.rows ids embeddings documents metadatas) = ids
  ∧ map entry_embedding (Chroma.rows ids embeddings documents metadatas) = embeddings
  ∧ map entry_document (Chroma.rows ids embeddings documents metadatas) = documents
  ∧ map entry_metadata (Chroma.rows ids embeddings documents metadatas) = metadatas.
Proof.
  revert embeddings documents metadatas.
  induction ids as [|i ids IH]; intros [|e es] [|d ds] [|m ms]; try done.
  simpl. intros He Hd Hm.
  destruct (IH es ds ms) as (H1 & H2 & H3 & H4); [lia..|].
  unfold ids_of, Chroma.rows in *. simpl. by rewrite H1, H2, H3, H4.
Qed.

Lemma rows_length ids embeddings documents metadatas :
  length embeddings = length ids →
  length documents = length ids →
  length metadatas = length ids →
  length (Chroma.rows ids embeddings documents metadatas) = length ids.
Proof.
  intros He Hd Hm.
  destruct (rows_columns ids embeddings documents metadatas He Hd Hm) as [H _].
  by rewrite <-H at 2; unfold ids_of; rewrite length_map.
Qed.

Lemma validate_None ids embeddings documents metadatas existing :
  Chroma.validate ids embeddings documents metadatas existing = None ↔
  ids ≠ []
  ∧ length embeddings = length ids
  ∧ length documents = length ids
  ∧ length metadatas = length ids
  ∧ NoDup (ids_of existing ++ ids).
Proof.
  unfold Chroma.validate, ids_of.
  destruct (bool_decide_reflect (ids = [])) as [->|Hne].
  { split; [done|]. by intros []. }
  destruct (Nat.eqb_spec (length embeddings) (length ids)) as [He|He]; simpl;
    [|split; [done|]; intros (_ & ? & _); done].
  destruct (Nat.eqb_spec (length documents) (length ids)) as [Hd|Hd]; simpl;
    [|split; [done|]; intros (_ & _ & ? & _); done].
  destruct (Nat.eqb_spec (length metadatas) (length ids)) as [Hm|Hm]; simpl;
    [|split; [done|]; intros (_ & _ & _ & ? & _); done].
  destruct (bool_decide_reflect (NoDup (map entry_id existing ++ ids)))
    as [Hnodup|Hdup]; simpl.
  - split; [|done]. by intros _.
  - split; [done|]. by intros (_ & _ & _ & _ & ?).
Qed.

(** ** Runs that only append *)

Lemma entries_lookup w rows :
  vector_db w !! COLLECTION_NAME = Some rows → entries w = rows.
Proof. unfold entries. by intros ->. Qed.

Lemma grows_refl w : grows w w [] [].
Proof. unfold grows. by rewrite !app_nil_r. Qed.

Lemma grows_trans w1 w2 w3 rows1 rows2 reqs1 reqs2 :
  grows w1 w2 rows1 reqs1 → grows w2 w3 rows2 reqs2 →
  grows w1 w3 (rows1 ++ rows2) (reqs1 ++ reqs2).
Proof.
  intros (He1 & Ho1 & Hl1 & Hv1 & Hd1 & Hc1) (He2 & Ho2 & Hl2 & Hv2 & Hd2 & Hc2).
  unfold grows. rewrite He2, He1, Hl2, Hl1, Hv2, Hd2, Hc2, !app_assoc.
  repeat split; try done. intros name Hname. by rewrite Ho2, Ho1.
Qed.

Lemma grows_stdout w out : grows w (set_stdout out w) [] [].
Proof. unfold grows, entries; simpl. by rewrite !app_nil_r. Qed.

Lemma grows_count w w' rows reqs :
  grows w w' rows reqs → collection_count w' = collection_count w + length rows.
Proof. intros (He & _). unfold collection_count. by rewrite He, length_app. Qed.

Lemma grows_created w :
  vector_db w !! COLLECTION_NAME = None →
  grows w (set_vector_db (<[COLLECTION_NAME := []]> (vector_db w)) w) [] [].
Proof.
  intros Hnone. unfold grows, entries; simpl.
  rewrite lookup_insert_eq, Hnone, !app_nil_r. repeat split; try done.
  intros name Hname. by rewrite lookup_insert_ne.
Qed.

Lemma get_or_create_run w :
  ∃ w', Chroma.get_or_create_collection COLLECTION_NAME w = (Return COLLECTION_NAME, w')
        ∧ grows w w' [] []
        ∧ is_Some (vector_db w' !! COLLECTION_NAME)
        ∧ stdout w' = stdout w.
Proof.
  unfold Chroma.get_or_create_collection.
  destruct (vector_db w !! COLLECTION_NAME) as [rows|] eqn:Hlook.
  - exists w. split; [done|]. split; [apply grows_refl|]. by rewrite Hlook.
  - eexists. split; [done|]. split; [by apply grows_created|]. simpl.
    by rewrite lookup_insert_eq.
Qed.

(** ** One batch: embed, count, add *)

Lemma embed_and_add_returns ex batch w w' :
  embed_and_add ex COLLECTION_NAME batch w = (Return tt, w') →
  ∃ vs,
    embed_remote ex (embed_log w) (texts_of batch) = Replied vs
    ∧ length vs = length batch
    ∧ batch ≠ []
    ∧ grows w w'
        (Chroma.rows (fresh_ids (length (entries w)) (length batch)) vs
           (texts_of batch) (map metadata batch))
        [texts_of batch]
    ∧ is_Some (vector_db w' !! COLLECTION_NAME)
    ∧ stdout w' = stdout w.
Proof.
  unfold embed_and_add, bind, embed_documents.
  destruct (embed_remote ex (embed_log w) (texts_of batch)) as [vs|msg] eqn:Hvs;
    [|discriminate].
  unfold Chroma.count, Chroma.add; simpl.
  destruct (vector_db w !! COLLECTION_NAME) as [existing|] eqn:Hlook;
    [|discriminate]. simpl. rewrite Hlook.
  destruct (Chroma.validate _ _ _ _ _) eqn:Hvalid; [discriminate|].
  intros [= <-]. apply validate_None in Hvalid as (Hne & Hlen & _).
  rewrite fresh_ids_length in Hlen. exists vs. split; [done|]. split; [done|].
  split. { intros ->. by apply Hne. }
  split; [|by simpl; rewrite lookup_insert_eq].
  unfold grows, entries; simpl. rewrite lookup_insert_eq, Hlook. simpl.
  repeat split; try done. intros name Hname. by rewrite lookup_insert_ne.
Qed.



Lemma batch_rows_length vs batch start :
  length vs = length batch →
  length (Chroma.rows (fresh_ids start (length batch)) vs (texts_of batch)
            (map metadata batch)) = length batch.
Proof.
  intros Hlen. rewrite rows_length; unfold texts_of;
    rewrite ?length_map, ?fresh_ids_length; done.
Qed.

(** ** The batch loop *)

Lemma ingest_batch_print ex documents i w :
  ∃ out, ingest_batch ex COLLECTION_NAME documents i w
         = embed_and_add ex COLLECTION_NAME (slice documents i) (set_stdout out w).
Proof. by eexists. Qed.

Lemma loop_returns ex documents starts w w' :
  for_ starts (ingest_batch ex COLLECTION_NAME documents) w = (Return tt, w') →
  ∃ vss,
    answered ex (embed_log w) (map (slice documents) starts) vss
    ∧ Forall (fun b => b ≠ []) (map (slice documents) starts)
    ∧ grows w w'
        (batch_rows (length (entries w)) (map (slice documents) starts) vss)
        (map texts_of (map (slice documents) starts)).
Proof.
  revert w. induction starts as [|i starts IH]; intros w; simpl.
  - intros [= <-]. exists []. split; [done|]. split; [done|]. apply grows_refl.
  - intros (u & w1 & Hstep & Hrest)%bind_returns.
    destruct (ingest_batch_print ex documents i w) as [out Hprint].
    rewrite Hprint in Hstep. destruct u.
    apply embed_and_add_returns in Hstep
      as (vs & Hvs & Hlen & Hne & Hgrow & _ & _).
    apply IH in Hrest as (vss & Hans & Hall & Hgrow').
    pose proof (grows_trans _ _ _ _ _ _ _ (grows_stdout w out) Hgrow) as Hgrow1.
    simpl in Hgrow1.
    destruct Hgrow1 as (He & Ho & Hl & Hrest1).
    exists (vs :: vss). simpl. split; [|split].
    + split; [done|]. split; [done|]. by rewrite <-Hl.
    + by constructor.
    + replace (length (entries w) + length (slice documents i))
        with (length (entries w1)).
      * apply (grows_trans w w1 w' _ _ [_] _); [|done].
        unfold grows. by rewrite He, Hl.
      * rewrite He, length_app. f_equal. by apply batch_rows_length.
Qed.

Lemma answered_lengths ex log bs vss :
  answered ex log bs vss → Forall2 (fun b vs => length vs = length b) bs vss.
Proof.
  revert log vss. induction bs as [|b bs IH]; intros log [|vs vss]; simpl; try done.
  intros (_ & Hlen & Hrest). constructor; [done|]. by eapply IH.
Qed.

Lemma batch_rows_columns start bs vss :
  Forall2 (fun b vs => length vs = length b) bs vss →
  ids_of (batch_rows start bs vss) = fresh_ids start (length (concat bs))
  ∧ map entry_document (batch_rows start bs vss) = texts_of (concat bs)
  ∧ map entry_metadata (batch_rows start bs vss) = map metadata (concat bs)
  ∧ map entry_embedding (batch_rows start bs vss) = concat vss
  ∧ length (batch_rows start bs vss) = length (concat bs).
Proof.
  intros Hall. revert start.
  induction Hall as [|b vs bs vss Hlen _ IH]; intros start; simpl; [done|].
  destruct (IH (start + length b)) as (H1 & H2 & H3 & H4 & H5).
  destruct (rows_columns (fresh_ids start (length b)) vs (texts_of b)
              (map metadata b)) as (R1 & R2 & R3 & R4);
    [unfold texts_of; rewrite ?length_map, ?fresh_ids_length; done..|].
  unfold ids_of, texts_of in *.
  rewrite !map_app, !length_app, fresh_ids_app, H1, H2, H3, H4, H5, R1, R2, R3, R4.
  repeat split; try done. f_equal. by apply batch_rows_length.
Qed.


(** ** The slices partition the documents *)

Section Slices.
Context {A : Type}.

Lemma concat_slices (l : list A) (b k n : nat) :
  concat (map (fun i => take b (drop i l)) (map (fun j => j * b) (seq k n)))
  = take (n * b) (drop (k * b) l).
Proof.
  revert k. induction n as [|n IH]; intros k; simpl; [done|].
  rewrite IH, <-take_take_drop, drop_drop. do 3 f_equal. lia.
Qed.
End Slices.

Lemma range_step_covers (n b : nat) : (0 < b → n ≤ (n + b - 1) / b * b)%nat.
Proof.
  intros Hb. pose proof (Nat.div_mod_eq (n + b - 1) b) as Hdiv.
  pose proof (Nat.mod_upper_bound (n + b - 1) b). lia.
Qed.

Lemma range_step_below (n b i : nat) :
  (0 < b)%nat → i ∈ range_step n b → (i < n)%nat.
Proof.
  intros Hb. unfold range_step.
  intros (k & -> & Hk)%list_elem_of_fmap. apply elem_of_seq in Hk.
  pose proof (Nat.div_mod_eq (n + b - 1) b) as Hdiv.
  pose proof (Nat.mod_upper_bound (n + b - 1) b). nia.
Qed.

Lemma batches_concat documents : concat (batches_of documents) = documents.
Proof.
  unfold batches_of, range_step, slice. rewrite concat_slices.
  change (0 * EMBEDDING_BATCH_SIZE) with 0. rewrite drop_0.
  apply take_ge, range_step_covers. unfold EMBEDDING_BATCH_SIZE. lia.
Qed.

Lemma batches_sizes documents :
  Forall (fun b => (0 < length b ≤ EMBEDDING_BATCH_SIZE)%nat) (batches_of documents).
Proof.
  unfold batches_of. apply Forall_fmap, Forall_forall. intros i Hi.
  cbv [compose].
  apply range_step_below in Hi; [|unfold EMBEDDING_BATCH_SIZE; lia].
  unfold slice. rewrite length_take, length_drop. unfold EMBEDDING_BATCH_SIZE. lia.
Qed.

Lemma batches_nonempty documents :
  Forall (fun b => b ≠ []) (batches_of documents).
Proof.
  eapply Forall_impl; [apply batches_sizes|]. simpl. intros b [Hpos _] ->.
  simpl in Hpos. lia.
Qed.

(** ** [create_knowledge_base], whole calls *)

Lemma load_files_returns json_files acc w docs w1 :
  load_files json_files acc w = (Return docs, w1) →
  docs = acc ++ parsed_files json_files.
Proof.
  revert acc w. induction json_files as [|[name [data| |msg]] rest IH];
    intros acc w; simpl.
  - intros [= <- _]. by rewrite app_nil_r.
  - unfold bind, load_one; simpl. intros ->%IH. by rewrite <-app_assoc.
  - unfold bind, load_one; simpl. apply IH.
  - unfold bind, load_one; simpl. discriminate.
Qed.

Lemma load_returns w docs w1 :
  load_documents_from_json_dir w = (Return docs, w1) →
  docs = parsed_files (default [] (final_json_dir w))
  ∧ ∃ out, w1 = set_stdout out w.
Proof.
  intros Hrun. split.
  - unfold load_documents_from_json_dir in Hrun.
    destruct (final_json_dir w) as [files|]; simpl.
    + by apply load_files_returns in Hrun.
    + by injection Hrun as <- _.
  - destruct (load_only_prints w) as [out Hout]. exists out.
    by rewrite Hrun in Hout.
Qed.

Lemma count_returns coll w n w1 :
  Chroma.count coll w = (Return n, w1) → w1 = w.
Proof.
  unfold Chroma.count. destruct (vector_db w !! coll); [|discriminate].
  by intros [= _ <-].
Qed.

Lemma entries_set_stdout out w : entries (set_stdout out w) = entries w.
Proof. done. Qed.

Lemma grows_stdout_l w out w' rows reqs :
  grows (set_stdout out w) w' rows reqs → grows w w' rows reqs.
Proof. intros H. apply (grows_trans _ _ _ [] _ [] _ (grows_stdout w out) H). Qed.

Lemma grows_stdout_r w out w' rows reqs :
  grows w w' rows reqs → grows w (set_stdout out w') rows reqs.
Proof.
  intros H. pose proof (grows_trans _ _ _ _ _ _ _ H (grows_stdout w' out)) as H'.
  by rewrite !app_nil_r in H'.
Qed.

Lemma create_returns ex documents w w' :
  create_knowledge_base ex documents w = (Return tt, w') →
  credential_set w
  ∧ ∃ vss,
      answered ex (embed_log w) (batches_of (resolved documents w)) vss
      ∧ grows w w'
          (batch_rows (length (entries w)) (batches_of (resolved documents w)) vss)
          (map texts_of (batches_of (resolved documents w))).
Proof.
  unfold create_knowledge_base.
  rewrite (bind_step _ _ _ _ _ (getenv_run _ w)).
  destruct (falsy_str (environ w !! "OPENAI_API_KEY")) eqn:Hkey; [discriminate|].
  intros (docs & w0 & Hdocs & Hrun)%bind_returns. split; [done|].
  assert (Hw0 : docs = resolved documents w ∧ ∃ out, w0 = set_stdout out w).
  { destruct documents as [d|]; simpl in *.
    - injection Hdocs as <- <-. split; [done|]. exists (stdout w). by destruct w.
    - by apply load_returns. }
  destruct Hw0 as [-> [out ->]].
  destruct (resolved documents w) as [|d docs] eqn:Hres.
  { injection Hrun as <-. exists []. split; [done|].
    apply grows_stdout_r, grows_stdout. }
  apply bind_returns in Hrun as (coll & w2 & Hcoll & Hrun).
  destruct (get_or_create_run (set_stdout out w)) as (w2' & Hcoll' & Hgrow2 & _).
  rewrite Hcoll' in Hcoll. injection Hcoll as <- <-.
  apply bind_returns in Hrun as ([] & w3 & Hprint & Hrun).
  injection Hprint as <-.
  apply bind_returns in Hrun as ([] & w4 & Hloop & Hrun).
  apply loop_returns in Hloop as (vss & Hans & _ & Hgrow4).
  apply bind_returns in Hrun as (total & w5 & ->%count_returns & Hrun).
  injection Hrun as <-.
  rewrite entries_set_stdout in Hgrow4. cbn [embed_log set_stdout] in Hans.
  apply grows_stdout_l in Hgrow4. apply grows_stdout_l in Hgrow2.
  destruct (Hgrow2) as (He2 & _ & Hl2 & _). rewrite app_nil_r in He2, Hl2.
  rewrite He2 in Hgrow4. rewrite Hl2 in Hans.
  exists vss. split; [done|]. apply grows_stdout_r.
  apply (grows_trans _ _ _ [] _ [] _ Hgrow2 Hgrow4).
Qed.

(** ** A provider failure in the middle of a rebuild (C3) *)


Lemma batches_take documents i :
  take i (batches_of documents)
  = map (slice documents) (take i (range_step (length documents) EMBEDDING_BATCH_SIZE)).
Proof. unfold batches_of. by rewrite fmap_take. Qed.




(** ** [update_knowledge_base], whole calls *)

(** On a non-empty list and with the credential set, the function opens
    the collection, embeds and appends all the documents as one batch,
    and reports. *)
Lemma update_unfold ex r rs w :
  credential_set w →
  update_knowledge_base ex (r :: rs) w
  = (do collection <- Chroma.get_or_create_collection COLLECTION_NAME ;
     embed_and_add ex collection (map (record_document ex) (r :: rs)) >>
     print ("Added " +:+ pretty (length (map (record_document ex) (r :: rs)))
            +:+ " new document(s) to knowledge base.")) w.
Proof.
  intros Hkey. unfold update_knowledge_base.
  rewrite (bind_step _ _ _ _ _ (getenv_run _ w)).
  unfold credential_set in Hkey. rewrite Hkey.
  unfold bind. destruct (Chroma.get_or_create_collection _ w) as [[coll|e] w1];
    [|done].
  unfold embed_and_add, bind, texts_of. cbn [map length].
  destruct (embed_documents ex _ w1) as [[vs|e] w2]; [|done].
  destruct (Chroma.count coll w2) as [[n|e] w3]; [|done].
  by destruct (Chroma.add _ _ _ _ _ w3) as [[[]|e] w4].
Qed.

Lemma update_returns ex final_json_list w w' :
  final_json_list ≠ [] →
  update_knowledge_base ex final_json_list w = (Return tt, w') →
  let docs := map (record_document ex) final_json_list in
  credential_set w
  ∧ ∃ vs,
      embed_remote ex (embed_log w) (texts_of docs) = Replied vs
      ∧ length vs = length docs
      ∧ grows w w'
          (Chroma.rows (fresh_ids (collection_count w) (length docs)) vs
             (texts_of docs) (map metadata docs))
          [texts_of docs].
Proof.
  destruct final_json_list as [|r rs]; [done|]. intros _ Hrun docs.
  assert (Hkey : credential_set w).
  { unfold credential_set.
    destruct (falsy_str (environ w !! "OPENAI_API_KEY")) eqn:Hkey; [|done].
    by rewrite update_without_credential in Hrun. }
  split; [done|]. rewrite update_unfold in Hrun by done.
  apply bind_returns in Hrun as (coll & w1 & Hcoll & Hrun).
  destruct (get_or_create_run w) as (w1' & Hcoll' & Hgrow1 & _).
  rewrite Hcoll' in Hcoll. injection Hcoll as <- <-.
  apply bind_returns in Hrun as ([] & w2 & Hstep & Hprint).
  injection Hprint as <-.
  apply embed_and_add_returns in Hstep as (vs & Hvs & Hlen & _ & Hgrow2 & _).
  destruct (Hgrow1) as (He1 & _ & Hl1 & _). rewrite app_nil_r in He1, Hl1.
  rewrite He1 in Hgrow2. rewrite Hl1 in Hvs.
  exists vs. split; [done|]. split; [done|]. apply grows_stdout_r.
  apply (grows_trans _ _ _ [] _ [] _ Hgrow1 Hgrow2).
Qed.


(** ** Sequences of ingest calls (C1) *)

Lemma run_call_returns ex call w w' :
  run_call ex call w = (Return tt, w') →
  ∃ rows reqs,
    grows w w' rows reqs
    ∧ ids_of rows = fresh_ids (collection_count w) (records_of call w)
    ∧ length rows = records_of call w.
Proof.
  destruct call as [documents|final_json_list]; simpl.
  - intros (_ & vss & Hans & Hgrow)%create_returns.
    destruct (batch_rows_columns (collection_count w)
                (batches_of (resolved documents w)) vss
                (answered_lengths _ _ _ _ Hans)) as (Hids & _ & _ & _ & Hlen).
    rewrite batches_concat in Hids, Hlen. by eexists _, _.
  - destruct final_json_list as [|r rs].
    { intros [= <-]. exists [], []. split; [apply grows_refl|done]. }
    intros (_ & vs & _ & Hlen & Hgrow)%update_returns; [|done].
    destruct (rows_columns
                (fresh_ids (collection_count w)
                   (length (map (record_document ex) (r :: rs))))
                vs (texts_of (map (record_document ex) (r :: rs)))
                (map metadata (map (record_document ex) (r :: rs))))
      as (Hids & _);
      [unfold texts_of; rewrite ?length_map, ?fresh_ids_length in *; done..|].
    eexists _, _. split; [done|]. rewrite Hids, length_map. split; [done|].
    rewrite rows_length; unfold texts_of;
      rewrite ?length_map, ?fresh_ids_length in *; done.
Qed.

Lemma records_of_grows call w w' rows reqs :
  grows w w' rows reqs → records_of call w' = records_of call w.
Proof.
  intros (_ & _ & _ & _ & Hdir & _). destruct call as [[docs|]|l]; simpl; try done.
  by rewrite Hdir.
Qed.

Lemma run_calls_returns ex calls w w' :
  run_calls ex calls w = (Return tt, w') →
  ∃ rows reqs,
    grows w w' rows reqs
    ∧ ids_of rows
      = fresh_ids (collection_count w)
          (sum_list (map (fun call => records_of call w) calls))
    ∧ length rows = sum_list (map (fun call => records_of call w) calls).
Proof.
  unfold run_calls. revert w. induction calls as [|call calls IH]; intros w; simpl.
  - intros [= <-]. exists [], []. split; [apply grows_refl|done].
  - intros ([] & w1 & Hcall & Hrest)%bind_returns.
    apply run_call_returns in Hcall as (rows1 & reqs1 & Hgrow1 & Hids1 & Hlen1).
    apply IH in Hrest as (rows2 & reqs2 & Hgrow2 & Hids2 & Hlen2).
    assert (Hsame : map (fun call => records_of call w1) calls
                    = map (fun call => records_of call w) calls).
    { apply map_ext. intros c. by eapply records_of_grows. }
    rewrite Hsame in Hids2, Hlen2.
    rewrite (grows_count _ _ _ _ Hgrow1), Hlen1 in Hids2.
    exists (rows1 ++ rows2), (reqs1 ++ reqs2).
    split; [by eapply grows_trans|].
    unfold ids_of in *. rewrite map_app, length_app, fresh_ids_app, Hids1, Hids2.
    by rewrite Hlen1, Hlen2.
Qed.

(** C1. Ingest calls run one after the other, each to completion, on a
    collection this module alone has written to (no collection yet, or
    ids [doc_0], [doc_1], ... in order).  When they all return, the
    collection has grown by the sum of the numbers of records of the
    calls, its ids are pairwise distinct (they are [doc_0] ...
    [doc_(count-1)]), and every call in the sequence appended its own
    records with the contiguous ids starting at the count the
    collection had when the call began, which is the initial count plus
    the records of the calls before it. *)
Theorem sequential_ingest_assigns_contiguous_ids ex calls w wN :
  sequential_ids (entries w) →
  run_calls ex calls w = (Return tt, wN) →
  collection_count wN
  = collection_count w + sum_list (map (fun call => records_of call w) calls)
  ∧ NoDup (ids_of (entries wN))
  ∧ ids_of (entries wN) = fresh_ids 0 (collection_count wN)
  ∧ ∀ before call after,
      calls = before ++ call :: after →
      ∃ w1 w2 new_rows,
        run_calls ex before w = (Return tt, w1)
        ∧ run_call ex call w1 = (Return tt, w2)
        ∧ collection_count w1
          = collection_count w
            + sum_list (map (fun call => records_of call w) before)
        ∧ entries w2 = entries w1 ++ new_rows
        ∧ length new_rows = records_of call w
        ∧ ids_of new_rows = fresh_ids (collection_count w1) (records_of call w).
Proof.
  intros Hseq Hrun.
  assert (Hfinal : sequential_ids (entries wN)
                   ∧ collection_count wN
                     = collection_count w
                       + sum_list (map (fun call => records_of call w) calls)).
  { apply run_calls_returns in Hrun as (rows & reqs & Hgrow & Hids & Hlen).
    split; [|by rewrite (grows_count _ _ _ _ Hgrow), Hlen].
    destruct Hgrow as (-> & _). apply sequential_ids_app; [done|].
    by rewrite Hlen. }
  destruct Hfinal as [HseqN HcountN].
  split; [done|]. split; [by apply sequential_ids_NoDup|]. split; [done|].
  intros before call after ->. unfold run_calls in Hrun.
  rewrite for__app in Hrun.
  destruct (for_ before (run_call ex) w) as [[[]|e] w1] eqn:Hbefore; [|done].
  simpl in Hrun. apply bind_returns in Hrun as ([] & w2 & Hcall & _).
  pose proof Hbefore as Hb. apply run_calls_returns in Hb
    as (rows1 & reqs1 & Hgrow1 & _ & Hlen1).
  pose proof Hcall as Hc. apply run_call_returns in Hc
    as (rows2 & reqs2 & Hgrow2 & Hids2 & Hlen2).
  rewrite (records_of_grows _ _ _ _ _ Hgrow1) in Hids2, Hlen2.
  exists w1, w2, rows2. split; [done|]. split; [done|].
  split; [by rewrite (grows_count _ _ _ _ Hgrow1), Hlen1|].
  by destruct Hgrow2 as (-> & _).
Qed.

Lemma sequential_ingest_assigns_contiguous_ids_witness :
  sequential_ids (entries Sample.configured)
  ∧ ∃ wN,
      run_calls Sample.reliable Sample.three_calls Sample.configured
      = (Return tt, wN)
      ∧ collection_count wN = 6
      ∧ NoDup (ids_of (entries wN))
      ∧ ids_of (entries wN)
        = ["doc_0"; "doc_1"; "doc_2"; "doc_3"; "doc_4"; "doc_5"].
Proof.
  assert (Hseq : sequential_ids (entries Sample.configured)) by reflexivity.
  split; [exact Hseq|].
  set (wN := snd (run_calls Sample.reliable Sample.three_calls Sample.configured)).
  assert (Hrun : run_calls Sample.reliable Sample.three_calls Sample.configured
                 = (Return tt, wN)) by (vm_compute; reflexivity).
  exists wN. split; [exact Hrun|].
  destruct (sequential_ingest_assigns_contiguous_ids Sample.reliable
              Sample.three_calls Sample.configured wN Hseq Hrun)
    as (Hcount & Hnodup & Hids & _).
  split; [exact Hcount|]. split; [exact Hnodup|].
  rewrite Hids, Hcount. reflexivity.
Defined.

(** ** Records without a [documentId] (C10) *)






(** ** Batches in input order (C7) *)




(** * Further properties of the code *)

(** ** The environment check *)

Lemma missing_vars_spec w var :
  var ∈ missing_vars w ↔
  var ∈ REQUIRED_ENV_VARS ∧ falsy_str (environ w !! var) = true.
Proof.
  unfold missing_vars. rewrite !list_elem_of_In, filter_In. tauto.
Qed.

Lemma missing_vars_nil w :
  missing_vars w = [] ↔
  ∀ var, var ∈ REQUIRED_ENV_VARS → falsy_str (environ w !! var) = false.
Proof.
  split.
  - intros Hnil var Hvar.
    destruct (falsy_str (environ w !! var)) eqn:Hfalsy; [|done].
    assert (Hin : var ∈ missing_vars w) by (by apply missing_vars_spec).
    rewrite Hnil in Hin. by apply elem_of_nil in Hin.
  - intros Hall. destruct (missing_vars w) as [|var rest] eqn:Hmissing; [done|].
    assert (Hin : var ∈ missing_vars w) by (rewrite Hmissing; left).
    apply missing_vars_spec in Hin as [Hvar Hfalsy].
    by rewrite (Hall var Hvar) in Hfalsy.
Qed.

(** [validate_environment] returns [True] exactly when every required
    variable is set to a non-empty string; otherwise it raises a
    [ValueError] whose message lists, after the fixed prefix, exactly
    the required variables that are unset or empty.  It never returns
    [False] and never changes the world. *)
Theorem validate_environment_checks_required_vars w :
  snd (validate_environment w) = w
  ∧ (fst (validate_environment w) = Return true ↔
     ∀ var, var ∈ REQUIRED_ENV_VARS → falsy_str (environ w !! var) = false)
  ∧ fst (validate_environment w) ≠ Return false
  ∧ (∀ e, fst (validate_environment w) = Raise e →
       ∃ missing,
         missing ≠ []
         ∧ e = ValueError ("Missing required environment variables: "
                           +:+ Py.join ", " missing)
         ∧ ∀ var, var ∈ missing ↔
             var ∈ REQUIRED_ENV_VARS ∧ falsy_str (environ w !! var) = true).
Proof.
  unfold validate_environment.
  destruct (missing_vars w) as [|var rest] eqn:Hmissing; simpl.
  - split; [done|]. split; [|done]. split; [|done].
    intros _. by apply missing_vars_nil.
  - split; [done|]. split; [|split; [done|]].
    + split; [done|]. intros Hall%missing_vars_nil. congruence.
    + intros e [= <-]. exists (var :: rest). split; [done|]. split; [done|].
      intros v. rewrite <-Hmissing. apply missing_vars_spec.
Qed.

(** ** Which exceptions can leave the functions *)

Lemma bind_raises_inv {A B : Type} (c : M A) (k : A -> M B) w e w' :
  bind c k w = (Raise e, w') →
  c w = (Raise e, w') ∨ ∃ a w1, c w = (Return a, w1) ∧ k a w1 = (Raise e, w').
Proof.
  unfold bind. destruct (c w) as [[a|e1] w1]; intros H.
  - right. by exists a, w1.
  - left. by injection H as -> ->.
Qed.

Lemma for__raises {A : Type} (xs : list A) (body : A -> M unit) w e w' :
  for_ xs body w = (Raise e, w') →
  ∃ pre x post w1,
    xs = pre ++ x :: post
    ∧ for_ pre body w = (Return tt, w1)
    ∧ body x w1 = (Raise e, w').
Proof.
  revert w. induction xs as [|x xs IH]; intros w; simpl; [done|].
  intros [Hx|([] & w1 & Hx & Hrest)]%bind_raises_inv.
  - by exists [], x, xs, w.
  - apply IH in Hrest as (pre & y & post & w2 & -> & Hpre & Hy).
    exists (x :: pre), y, post, w2. split; [done|]. split; [|done].
    simpl. by rewrite (bind_step _ _ _ _ _ Hx).
Qed.

Lemma validate_Some ids embeddings documents metadatas existing fault :
  Chroma.validate ids embeddings documents metadatas existing = Some fault →
  (fault = EmptyBatch ∧ ids = [])
  ∨ (fault = InconsistentLengths
     ∧ ¬ (length embeddings = length ids ∧ length documents = length ids
          ∧ length metadatas = length ids))
  ∨ (fault = DuplicateID ∧ ¬ NoDup (ids_of existing ++ ids)).
Proof.
  unfold Chroma.validate, ids_of.
  destruct (bool_decide_reflect (ids = [])) as [->|Hne].
  { intros [= <-]. by left. }
  destruct (Nat.eqb_spec (length embeddings) (length ids)) as [He|He]; simpl;
    [|intros [= <-]; right; left; split; [done|]; by intros (? & _)].
  destruct (Nat.eqb_spec (length documents) (length ids)) as [Hd|Hd]; simpl;
    [|intros [= <-]; right; left; split; [done|]; by intros (_ & ? & _)].
  destruct (Nat.eqb_spec (length metadatas) (length ids)) as [Hm|Hm]; simpl;
    [|intros [= <-]; right; left; split; [done|]; by intros (_ & _ & ?)].
  destruct (bool_decide_reflect (NoDup (map entry_id existing ++ ids)))
    as [Hnodup|Hdup]; simpl; [done|].
  intros [= <-]. by right; right.
Qed.

Lemma embed_and_add_raises ex batch w e w' :
  is_Some (vector_db w !! COLLECTION_NAME) →
  batch ≠ [] →
  embed_and_add ex COLLECTION_NAME batch w = (Raise e, w') →
  batch_failure ex batch w e
  ∧ vector_db w' = vector_db w
  ∧ grows w w' [] [texts_of batch]
  ∧ stdout w' = stdout w.
Proof.
  intros [existing Hlook] Hne. pose proof (entries_lookup _ _ Hlook) as Hent.
  unfold embed_and_add, bind, embed_documents.
  assert (Hgrow : grows w (set_embed_log (embed_log w ++ [texts_of batch]) w)
                    [] [texts_of batch]).
  { unfold grows, entries; simpl. by rewrite app_nil_r. }
  destruct (embed_remote ex (embed_log w) (texts_of batch)) as [vs|msg] eqn:Hvs.
  - unfold Chroma.count, Chroma.add; simpl. rewrite Hlook. simpl. rewrite Hlook.
    destruct (Chroma.validate _ _ _ _ _) as [fault|] eqn:Hvalid; [|discriminate].
    intros [= <- <-]. split; [|done].
    apply validate_Some in Hvalid as [[-> Hnil]|[[-> Hlen]|[-> Hdup]]].
    + apply fresh_ids_nil in Hnil. by destruct batch.
    + apply (wrong_number_of_embeddings _ _ _ vs); [done|]. intros Heq.
      apply Hlen. unfold texts_of. by rewrite !length_map, fresh_ids_length.
    + apply (id_taken _ _ _ vs); [done|]. by rewrite Hent.
  - intros [= <- <-]. split; [|done]. by constructor.
Qed.

Lemma batch_failure_stdout ex batch out w e :
  batch_failure ex batch (set_stdout out w) e → batch_failure ex batch w e.
Proof.
  intros [msg Hmsg|vs Hvs Hlen|vs Hvs Hdup].
  - by constructor.
  - by apply (wrong_number_of_embeddings _ _ _ vs).
  - by apply (id_taken _ _ _ vs).
Qed.

Lemma loop_keeps_collection ex documents starts w w' :
  is_Some (vector_db w !! COLLECTION_NAME) →
  for_ starts (ingest_batch ex COLLECTION_NAME documents) w = (Return tt, w') →
  is_Some (vector_db w' !! COLLECTION_NAME).
Proof.
  revert w. induction starts as [|i starts IH]; intros w Hsome; simpl.
  - by intros [= <-].
  - intros ([] & w1 & Hstep & Hrest)%bind_returns.
    destruct (ingest_batch_print ex documents i w) as [out Hprint].
    rewrite Hprint in Hstep.
    apply embed_and_add_returns in Hstep as (_ & _ & _ & _ & _ & Hsome1 & _).
    by apply (IH w1).
Qed.

Lemma loop_raises ex documents starts w e w' :
  is_Some (vector_db w !! COLLECTION_NAME) →
  Forall (fun b => b ≠ []) (map (slice documents) starts) →
  for_ starts (ingest_batch ex COLLECTION_NAME documents) w = (Raise e, w') →
  ∃ i s vss w1,
    starts !! i = Some s
    ∧ answered ex (embed_log w) (map (slice documents) (take i starts)) vss
    ∧ grows w w1
        (batch_rows (length (entries w)) (map (slice documents) (take i starts)) vss)
        (map texts_of (map (slice documents) (take i starts)))
    ∧ batch_failure ex (slice documents s) w1 e
    ∧ grows w1 w' [] [texts_of (slice documents s)].
Proof.
  intros Hsome Hne (pre & s & post & w1 & -> & Hpre & Hs)%for__raises.
  exists (length pre), s.
  pose proof (loop_keeps_collection _ _ _ _ _ Hsome Hpre) as Hsome1.
  apply loop_returns in Hpre as (vss & Hans & _ & Hgrow).
  exists vss, w1. rewrite take_app_length.
  split; [by rewrite list_lookup_middle|]. split; [done|]. split; [done|].
  destruct (ingest_batch_print ex documents s w1) as [out Hprint].
  rewrite Hprint in Hs.
  apply embed_and_add_raises in Hs as (Hfail & _ & Hgrow' & _); [|done|].
  - split; [by eapply batch_failure_stdout|]. by eapply grows_stdout_l.
  - rewrite map_app in Hne. apply Forall_app in Hne as [_ Hne].
    by apply Forall_cons in Hne as [Hne _].
Qed.

Lemma load_files_raises json_files acc w e w' :
  load_files json_files acc w = (Raise e, w') → ∃ msg, e = FileError msg.
Proof.
  revert acc w. induction json_files as [|[name [data| |msg]] rest IH];
    intros acc w; simpl.
  - discriminate.
  - unfold bind, load_one; simpl. apply IH.
  - unfold bind, load_one; simpl. apply IH.
  - unfold bind, load_one; simpl. intros [= <- _]. by exists msg.
Qed.

Lemma load_raises w e w' :
  load_documents_from_json_dir w = (Raise e, w') →
  (∃ msg, e = FileError msg) ∧ ∃ out, w' = set_stdout out w.
Proof.
  intros Hrun. split.
  - unfold load_documents_from_json_dir in Hrun.
    destruct (final_json_dir w) as [files|]; [|discriminate].
    by eapply load_files_raises.
  - destruct (load_only_prints w) as [out Hout]. exists out.
    by rewrite Hrun in Hout.
Qed.

(** How a call of [create_knowledge_base] that passed the credential
    check can fail: the loader raised on an unreadable file, or some
    batch did not go through after the batches before it were appended. *)
Lemma create_raises ex documents w e w' :
  credential_set w →
  create_knowledge_base ex documents w = (Raise e, w') →
  (documents = None ∧ (∃ msg, e = FileError msg) ∧ ∃ out, w' = set_stdout out w)
  ∨ ∃ i failing vss w1,
      batches_of (resolved documents w) !! i = Some failing
      ∧ answered ex (embed_log w) (take i (batches_of (resolved documents w))) vss
      ∧ grows w w1
          (batch_rows (collection_count w)
             (take i (batches_of (resolved documents w))) vss)
          (map texts_of (take i (batches_of (resolved documents w))))
      ∧ batch_failure ex failing w1 e
      ∧ grows w1 w' [] [texts_of failing].
Proof.
  intros Hkey. unfold create_knowledge_base.
  rewrite (bind_step _ _ _ _ _ (getenv_run _ w)).
  unfold credential_set in Hkey. rewrite Hkey.
  intros [Hload|(docs & w0 & Hdocs & Hrun)]%bind_raises_inv.
  { left. destruct documents as [d|]; [discriminate|].
    split; [done|]. by apply load_raises. }
  right.
  assert (Hw0 : docs = resolved documents w ∧ ∃ out, w0 = set_stdout out w).
  { destruct documents as [d|]; simpl in *.
    - injection Hdocs as <- <-. split; [done|]. exists (stdout w). by destruct w.
    - by apply load_returns. }
  destruct Hw0 as [-> [out ->]].
  destruct (resolved documents w) as [|d docs] eqn:Hres; [discriminate|].
  destruct (get_or_create_run (set_stdout out w)) as (w2 & Hcoll & Hgrow2 & Hsome2 & _).
  rewrite (bind_step _ _ _ _ _ Hcoll) in Hrun.
  apply bind_raises_inv in Hrun as [Hprint|([] & w3 & Hprint & Hrun)];
    [discriminate|].
  injection Hprint as <-.
  apply grows_stdout_l in Hgrow2.
  destruct (Hgrow2) as (He2 & _ & Hl2 & _). rewrite app_nil_r in He2, Hl2.
  apply bind_raises_inv in Hrun as [Hloop|([] & w4 & Hloop & Hrun)].
  - apply loop_raises in Hloop
      as (i & s & vss & w1 & Hs & Hans & Hgrow & Hfail & Hgrow'); [|done|].
    + rewrite entries_set_stdout, He2 in Hgrow.
      cbn [embed_log set_stdout] in Hans. rewrite Hl2 in Hans.
      apply grows_stdout_l in Hgrow.
      exists i, (slice (d :: docs) s), vss, w1. rewrite batches_take.
      split. { unfold batches_of. by rewrite list_lookup_fmap, Hs. }
      split; [done|]. split; [|done].
      apply (grows_trans _ _ _ [] _ [] _ Hgrow2 Hgrow).
    + apply (batches_nonempty (d :: docs)).
  - eapply loop_keeps_collection in Hloop as [rows Hrows]; [|exact Hsome2].
    apply bind_raises_inv in Hrun as [Hcount|(n & w5 & _ & Hprint)];
      [|discriminate].
    unfold Chroma.count in Hcount. by rewrite Hrows in Hcount.
Qed.







(** ** [update_knowledge_base]: one request, all rows or none *)

Lemma update_raises ex final_json_list w e w' :
  credential_set w →
  update_knowledge_base ex final_json_list w = (Raise e, w') →
  let docs := map (record_document ex) final_json_list in
  final_json_list ≠ []
  ∧ ∃ w1,
      grows w w1 [] []
      ∧ batch_failure ex docs w1 e
      ∧ grows w1 w' [] [texts_of docs]
      ∧ is_Some (vector_db w' !! COLLECTION_NAME).
Proof.
  intros Hkey Hrun docs. destruct final_json_list as [|r rs]; [discriminate|].
  split; [done|]. rewrite update_unfold in Hrun by done.
  destruct (get_or_create_run w) as (w1 & Hcoll & Hgrow1 & Hsome1 & _).
  rewrite (bind_step _ _ _ _ _ Hcoll) in Hrun.
  apply bind_raises_inv in Hrun as [Hstep|([] & w2 & _ & Hprint)];
    [|discriminate].
  apply embed_and_add_raises in Hstep as (Hfail & Hdb & Hgrow & _); [|done..].
  exists w1. split; [done|]. split; [done|]. split; [done|]. by rewrite Hdb.
Qed.



(** ** [query_knowledge_base] on an existing collection *)

Lemma query_runs ex q k w rows :
  credential_set w →
  vector_db w !! COLLECTION_NAME = Some rows →
  query_knowledge_base ex q k w
  = (match embed_remote ex (embed_log w) [q] with
     | Failed msg => Raise (ProviderError msg)
     | Replied vectors =>
         match search ex rows vectors k with
         | Failed msg => Raise (IndexError (SearchFailed msg))
         | Replied documents => Return (first_documents documents)
         end
     end,
     set_embed_log (embed_log w ++ [[q]]) w).
Proof.
  intros Hkey Hrows. unfold query_knowledge_base.
  rewrite (bind_step _ _ _ _ _ (getenv_run _ w)).
  unfold credential_set in Hkey. rewrite Hkey.
  unfold bind, Chroma.get_collection, Chroma.query. rewrite Hrows. simpl.
  rewrite Hrows.
  destruct (embed_remote ex (embed_log w) [q]) as [vectors|msg]; [|done].
  by destruct (search ex rows vectors k) as [documents|msg].
Qed.

(** [query_knowledge_base] only reads: whatever its outcome, the vector
    store, the environment, the record directory, the chat endpoint and
    the standard output are as before, and at most one request, for the
    query text alone, went to the embedding provider.  It raises the
    configuration error exactly when the credential is absent, the
    store's missing-collection error exactly when the credential is set
    and the collection was never created, and otherwise only the
    provider's failure or the failure of the search. *)
Theorem query_only_reads ex q k w :
  let outcome := query_knowledge_base ex q k w in
  vector_db (snd outcome) = vector_db w
  ∧ environ (snd outcome) = environ w
  ∧ final_json_dir (snd outcome) = final_json_dir w
  ∧ chat_log (snd outcome) = chat_log w
  ∧ stdout (snd outcome) = stdout w
  ∧ (embed_log (snd outcome) = embed_log w
     ∨ embed_log (snd outcome) = embed_log w ++ [[q]])
  ∧ (fst outcome = Raise ConfigError ↔ credential_absent w)
  ∧ (fst outcome = Raise (IndexError (CollectionNotFound COLLECTION_NAME)) ↔
     credential_set w ∧ vector_db w !! COLLECTION_NAME = None)
  ∧ (∀ e, fst outcome = Raise e →
       e = ConfigError
       ∨ e = IndexError (CollectionNotFound COLLECTION_NAME)
       ∨ (∃ msg, e = ProviderError msg)
       ∨ (∃ msg, e = IndexError (SearchFailed msg))).
Proof.
  intros outcome. subst outcome.
  destruct (falsy_str (environ w !! "OPENAI_API_KEY")) eqn:Hkey.
  { rewrite query_without_credential by done. simpl.
    repeat split; try done; try (by left); try (by intros [? _]).
    - unfold credential_set. intros [Hset _]. congruence.
    - intros e [= <-]. by left. }
  destruct (vector_db w !! COLLECTION_NAME) as [rows|] eqn:Hrows.
  - rewrite (query_runs ex q k w rows) by done. simpl.
    repeat split; try done; try (by right).
    + by destruct (embed_remote ex (embed_log w) [q]) as [vs|m];
        [destruct (search ex rows vs k)|].
    + unfold credential_absent. congruence.
    + by destruct (embed_remote ex (embed_log w) [q]) as [vs|m];
        [destruct (search ex rows vs k)|].
    + by intros [_ ?].
    + intros e. destruct (embed_remote ex (embed_log w) [q]) as [vs|m].
      * destruct (search ex rows vs k) as [d|m]; [done|].
        intros [= <-]. right; right; right. by exists m.
      * intros [= <-]. right; right; left. by exists m.
  - rewrite query_without_collection by done. simpl.
    repeat split; try done; try (by left).
    + unfold credential_absent. congruence.
    + intros e [= <-]. by right; left.
Qed.



(** ** The two ingest paths side by side *)

Lemma range_step_single (n : nat) :
  (0 < n ≤ EMBEDDING_BATCH_SIZE)%nat → range_step n EMBEDDING_BATCH_SIZE = [0].
Proof.
  intros Hn. unfold range_step.
  replace ((n + EMBEDDING_BATCH_SIZE - 1) / EMBEDDING_BATCH_SIZE) with 1; [done|].
  apply (Nat.div_unique _ _ 1 (n - 1)); unfold EMBEDDING_BATCH_SIZE in *; lia.
Qed.

Lemma embed_and_add_stdout ex batch out w :
  embed_and_add ex COLLECTION_NAME batch (set_stdout out w)
  = (fst (embed_and_add ex COLLECTION_NAME batch w),
     set_stdout out (snd (embed_and_add ex COLLECTION_NAME batch w))).
Proof.
  unfold embed_and_add, bind, embed_documents; simpl.
  destruct (embed_remote ex (embed_log w) (texts_of batch)) as [vs|msg]; [|done].
  unfold Chroma.count, Chroma.add; simpl.
  destruct (vector_db w !! COLLECTION_NAME) as [existing|]; [|done]. simpl.
  destruct (vector_db w !! COLLECTION_NAME) as [existing'|]; [|done].
  by destruct (Chroma.validate _ _ _ _ _).
Qed.

(** For at most [EMBEDDING_BATCH_SIZE] records the two ingest paths do
    the same: [update_knowledge_base] on a non-empty list of records and
    [create_knowledge_base] on the documents built from them return or
    raise alike and leave the same vector store and the same requests
    at the embedding provider (only the progress lines differ). *)
Theorem update_is_a_single_batch_create ex final_json_list w :
  final_json_list ≠ [] →
  (length final_json_list ≤ EMBEDDING_BATCH_SIZE)%nat →
  let updated := update_knowledge_base ex final_json_list w in
  let created :=
    create_knowledge_base ex (Some (map (record_document ex) final_json_list)) w in
  fst updated = fst created
  ∧ vector_db (snd updated) = vector_db (snd created)
  ∧ embed_log (snd updated) = embed_log (snd created)
  ∧ environ (snd updated) = environ (snd created)
  ∧ chat_log (snd updated) = chat_log (snd created).
Proof.
  intros Hne Hlen updated created. subst updated created.
  destruct (falsy_str (environ w !! "OPENAI_API_KEY")) eqn:Hkey.
  { rewrite update_without_credential, create_without_credential by done. done. }
  destruct final_json_list as [|r rs]; [done|].
  rewrite update_unfold by done.
  assert (Hsize : (0 < length (map (record_document ex) (r :: rs))
                   ≤ EMBEDDING_BATCH_SIZE)%nat)
    by (rewrite length_map; simpl in *; lia).
  generalize dependent (map (record_document ex) (r :: rs)).
  intros docs Hsize. destruct docs as [|d docs]; [simpl in Hsize; lia|].
  unfold create_knowledge_base.
  rewrite (bind_step _ _ _ _ _ (getenv_run _ w)), Hkey.
  rewrite (bind_step (ret (d :: docs)) _ w (d :: docs) w) by done.
  cbv beta iota.
  destruct (get_or_create_run w) as (w1 & Hcoll & _ & Hsome & _).
  rewrite !(bind_step _ _ _ _ _ Hcoll).
  set (line := "Populating database with " +:+ _).
  rewrite (bind_step (print line) _ w1 tt (set_stdout (stdout w1 ++ [line]) w1))
    by done.
  rewrite range_step_single by done.
  assert (Hslice : slice (d :: docs) 0 = d :: docs).
  { unfold slice. rewrite drop_0, take_ge; [done|]. lia. }
  destruct (ingest_batch_print ex (d :: docs) 0
              (set_stdout (stdout w1 ++ [line]) w1)) as [out Hprint].
  assert (Hbody : ingest_batch ex COLLECTION_NAME (d :: docs) 0
                    (set_stdout (stdout w1 ++ [line]) w1)
                  = (fst (embed_and_add ex COLLECTION_NAME (d :: docs) w1),
                     set_stdout out
                       (snd (embed_and_add ex COLLECTION_NAME (d :: docs) w1))))
    by (rewrite Hprint, Hslice; apply (embed_and_add_stdout ex (d :: docs) out w1)).
  destruct (embed_and_add ex COLLECTION_NAME (d :: docs) w1) as [[[]|e] w2] eqn:Hstep;
    simpl in Hbody.
  - rewrite (bind_step _ _ _ _ _ Hstep).
    assert (Hloop : for_ [0] (ingest_batch ex COLLECTION_NAME (d :: docs))
                      (set_stdout (stdout w1 ++ [line]) w1)
                    = (Return tt, set_stdout out w2))
      by (simpl; by rewrite (bind_step _ _ _ _ _ Hbody)).
    rewrite (bind_step _ _ _ _ _ Hloop).
    apply embed_and_add_returns in Hstep as (vs & _ & _ & _ & _ & [stored Hstored] & _).
    unfold bind, Chroma.count; simpl. rewrite Hstored. done.
  - rewrite (bind_raises _ _ _ _ _ Hstep).
    assert (Hloop : for_ [0] (ingest_batch ex COLLECTION_NAME (d :: docs))
                      (set_stdout (stdout w1 ++ [line]) w1)
                    = (Raise e, set_stdout out w2))
      by (simpl; by rewrite (bind_raises _ _ _ _ _ Hbody)).
    by rewrite (bind_raises _ _ _ _ _ Hloop).
Qed.

Lemma update_is_a_single_batch_create_witness :
  fst (update_knowledge_base Sample.reliable
         [Sample.record_A; Sample.record_B] Sample.configured)
  = fst (create_knowledge_base Sample.reliable
           (Some (map (record_document Sample.reliable)
                    [Sample.record_A; Sample.record_B])) Sample.configured)
  ∧ vector_db (snd (update_knowledge_base Sample.reliable
                      [Sample.record_A; Sample.record_B] Sample.configured))
    = vector_db (snd (create_knowledge_base Sample.reliable
                        (Some (map (record_document Sample.reliable)
                                 [Sample.record_A; Sample.record_B]))
                        Sample.configured)).
Proof.
  destruct (update_is_a_single_batch_create Sample.reliable
              [Sample.record_A; Sample.record_B] Sample.configured)
    as (Hres & Hdb & _).
  - discriminate.
  - unfold EMBEDDING_BATCH_SIZE. simpl. lia.
  - split; [exact Hres|exact Hdb].
Defined.

(** ** The loader *)

Lemma load_files_runs json_files acc w :
  unreadable_free json_files →
  load_files json_files acc w
  = (Return (acc ++ parsed_files json_files),
     set_stdout (stdout w ++ warnings json_files) w).
Proof.
  intros Hfree. revert acc w.
  induction Hfree as [|[name [data| |msg]] rest Hfile _ IH]; intros acc w; simpl.
  - rewrite !app_nil_r. by destruct w.
  - unfold bind, load_one; simpl. rewrite IH. by rewrite <-app_assoc.
  - unfold bind, load_one; simpl. rewrite IH. simpl. by rewrite <-app_assoc.
  - by destruct (Hfile msg).
Qed.

Lemma parsed_files_elem json_files doc :
  doc ∈ parsed_files json_files ↔
  ∃ name data,
    (name, Parsed data) ∈ json_files
    ∧ doc = mkDocument (Json.dumps_indent2 data) [("source", name)].
Proof.
  induction json_files as [|[name [data| |msg]] rest IH]; simpl.
  - split; [by intros ?%elem_of_nil|]. by intros (? & ? & ?%elem_of_nil & _).
  - rewrite elem_of_cons, IH. split.
    + intros [->|(n & d & Hin & ->)].
      * exists name, data. split; [left|done].
      * exists n, d. split; [by right|done].
    + intros (n & d & [[= -> ->]|Hin]%elem_of_cons & ->); [by left|].
      right. by exists n, d.
  - rewrite IH. split.
    + intros (n & d & Hin & ->). exists n, d. split; [by right|done].
    + intros (n & d & [[=]|Hin]%elem_of_cons & ->). by exists n, d.
  - rewrite IH. split.
    + intros (n & d & Hin & ->). exists n, d. split; [by right|done].
    + intros (n & d & [[=]|Hin]%elem_of_cons & ->). by exists n, d.
Qed.

Lemma parsed_warnings_length json_files :
  unreadable_free json_files →
  length (parsed_files json_files) + length (warnings json_files)
  = length json_files.
Proof.
  induction 1 as [|[name [data| |msg]] rest Hfile _ IH]; simpl; [done|lia|lia|].
  by destruct (Hfile msg).
Qed.

Lemma directory_readable_free w :
  directory_readable w → unreadable_free (default [] (final_json_dir w)).
Proof.
  unfold directory_readable. destruct (final_json_dir w); simpl; [done|].
  intros _. constructor.
Qed.

Lemma load_runs w :
  directory_readable w →
  load_documents_from_json_dir w
  = (Return (parsed_files (default [] (final_json_dir w))),
     set_stdout (stdout w ++ warnings (default [] (final_json_dir w))) w).
Proof.
  unfold load_documents_from_json_dir, directory_readable.
  destruct (final_json_dir w) as [files|]; simpl.
  - intros Hfree. by rewrite load_files_runs.
  - intros _. rewrite app_nil_r. by destruct w.
Qed.

(** When no file of the record directory is unreadable, the loader
    returns one document per file that decodes, in the order of the
    listing, each with the file's serialized content as text and the
    file's name as source; it prints one warning per malformed file, in
    order, and changes nothing else: every file is either loaded or
    warned about.  A missing directory gives no document and no
    warning. *)
Theorem loader_skips_malformed_files w :
  directory_readable w →
  let json_files := default [] (final_json_dir w) in
  load_documents_from_json_dir w
  = (Return (parsed_files json_files),
     set_stdout (stdout w ++ warnings json_files) w)
  ∧ length (parsed_files json_files) + length (warnings json_files)
    = length json_files
  ∧ (∀ doc, doc ∈ parsed_files json_files ↔
       ∃ name data,
         (name, Parsed data) ∈ json_files
         ∧ doc = mkDocument (Json.dumps_indent2 data) [("source", name)]).
Proof.
  intros Hfree json_files. split; [by apply load_runs|]. split.
  - by apply parsed_warnings_length, directory_readable_free.
  - intros doc. apply parsed_files_elem.
Qed.

Lemma loader_skips_malformed_files_witness :
  directory_readable Sample.mixed_directory
  ∧ fst (load_documents_from_json_dir Sample.mixed_directory)
    = Return [mkDocument (Json.dumps_indent2 (Json.JDict Sample.record_A))
                [("source", "A.json")];
              mkDocument (Json.dumps_indent2 (Json.JDict Sample.record_B))
                [("source", "B.json")]]
  ∧ stdout (snd (load_documents_from_json_dir Sample.mixed_directory))
    = ["Warning: Could not decode JSON from broken.json. Skipping."].
Proof.
  assert (Hfree : directory_readable Sample.mixed_directory).
  { repeat constructor; intros msg; discriminate. }
  split; [exact Hfree|].
  destruct (loader_skips_malformed_files Sample.mixed_directory Hfree)
    as (Hrun & _ & _).
  rewrite Hrun. split; reflexivity.
Defined.

(** A file of the record directory whose reading raises something other
    than [json.JSONDecodeError] is not skipped: the loader raises at the
    first such file, whatever decoded before it, and
    [create_knowledge_base], asked to load the documents itself, raises
    that error in a configured deployment without touching the vector
    store or the embedding provider. *)
Theorem unreadable_file_aborts_the_load ex w before name msg after :
  final_json_dir w = Some (before ++ (name, Unreadable msg) :: after) →
  unreadable_free before →
  fst (load_documents_from_json_dir w) = Raise (FileError msg)
  ∧ (credential_set w →
     fst (create_knowledge_base ex None w) = Raise (FileError msg)
     ∧ vector_db (snd (create_knowledge_base ex None w)) = vector_db w
     ∧ embed_log (snd (create_knowledge_base ex None w)) = embed_log w).
Proof.
  intros Hdir Hfree.
  assert (Hfiles : ∀ acc w0,
            fst (load_files (before ++ (name, Unreadable msg) :: after) acc w0)
            = Raise (FileError msg)).
  { clear Hdir. induction Hfree as [|[n [data| |m]] rest Hfile _ IH];
      intros acc w0; simpl.
    - done.
    - unfold bind, load_one; simpl. apply IH.
    - unfold bind, load_one; simpl. apply IH.
    - by destruct (Hfile m). }
  assert (Hload : fst (load_documents_from_json_dir w) = Raise (FileError msg)).
  { unfold load_documents_from_json_dir. rewrite Hdir. apply Hfiles. }
  split; [done|]. intros Hkey.
  destruct (load_only_prints w) as [out Hout].
  destruct (load_documents_from_json_dir w) as [r w1] eqn:Hrun.
  simpl in Hload, Hout. subst r w1.
  unfold create_knowledge_base.
  rewrite (bind_step _ _ _ _ _ (getenv_run _ w)).
  unfold credential_set in Hkey. rewrite Hkey.
  by rewrite (bind_raises _ _ _ _ _ Hrun).
Qed.

Lemma unreadable_file_aborts_the_load_witness :
  credential_set Sample.unreadable_directory
  ∧ fst (create_knowledge_base Sample.reliable None Sample.unreadable_directory)
    = Raise (FileError "invalid start byte")
  ∧ vector_db (snd (create_knowledge_base Sample.reliable None
                      Sample.unreadable_directory))
    = vector_db Sample.unreadable_directory.
Proof.
  assert (Hkey : credential_set Sample.unreadable_directory) by reflexivity.
  split; [exact Hkey|].
  destruct (unreadable_file_aborts_the_load Sample.reliable
              Sample.unreadable_directory
              [("A.json", Parsed (Json.JDict Sample.record_A))]
              "latin1.json" "invalid start byte"
              [("B.json", Parsed (Json.JDict Sample.record_B))])
    as (_ & Hcreate).
  - reflexivity.
  - repeat constructor. intros msg. discriminate.
  - destruct (Hcreate Hkey) as (Hres & Hdb & _). split; [exact Hres|exact Hdb].
Defined.

(** ** Ingestion with a dependable provider *)








(** ** A first ingest that fails *)



(** ** The same record on both paths *)

(** A record whose [documentId] is the string [s], read by the loader
    from the file [s.json] or handed to [update_knowledge_base], becomes
    the same document: the same text and the same source label. *)
Theorem loader_and_update_build_the_same_document ex (r : Json.record) s docs w :
  Json.get "documentId" r = Some (Json.JStr s) →
  load_one (s +:+ ".json", Parsed (Json.JDict r)) docs w
  = (Return (docs ++ [record_document ex r]), w)
  ∧ metadata (record_document ex r) = [("source", s +:+ ".json")]
  ∧ page_content (record_document ex r) = Json.dumps_indent2 (Json.JDict r).
Proof.
  intros Hid. unfold record_document, load_one. simpl. by rewrite Hid.
Qed.

Lemma loader_and_update_build_the_same_document_witness :
  Json.get "documentId" Sample.record_A = Some (Json.JStr "A")
  ∧ load_one ("A.json", Parsed (Json.JDict Sample.record_A)) [] Sample.configured
    = (Return [record_document Sample.reliable Sample.record_A], Sample.configured).
Proof.
  split; [reflexivity|].
  exact (proj1 (loader_and_update_build_the_same_document Sample.reliable
                  Sample.record_A "A" [] Sample.configured eq_refl)).
Defined.

(** ** The sizes of the batches *)

Lemma range_step_length (n : nat) :
  length (range_step n EMBEDDING_BATCH_SIZE)
  = (n + EMBEDDING_BATCH_SIZE - 1) / EMBEDDING_BATCH_SIZE.
Proof. unfold range_step. by rewrite length_map, length_seq. Qed.

Lemma range_step_lookup (n j : nat) :
  (j < length (range_step n EMBEDDING_BATCH_SIZE))%nat →
  range_step n EMBEDDING_BATCH_SIZE !! j = Some (j * EMBEDDING_BATCH_SIZE).
Proof.
  rewrite range_step_length. intros Hj. unfold range_step.
  by rewrite list_lookup_fmap, lookup_seq_lt.
Qed.

(** The loop of [create_knowledge_base] makes
    [ceil(n / EMBEDDING_BATCH_SIZE)] batches out of [n] documents; every
    batch but the last holds exactly [EMBEDDING_BATCH_SIZE] documents
    and the last one holds the rest, at least one: the [j]-th batch is
    [documents[100 j : 100 j + 100]]. *)
Theorem batches_are_full_but_the_last documents :
  let n := length documents in
  let batches := batches_of documents in
  length batches = (n + EMBEDDING_BATCH_SIZE - 1) / EMBEDDING_BATCH_SIZE
  ∧ ∀ j batch,
      batches !! j = Some batch →
      batch = take EMBEDDING_BATCH_SIZE (drop (j * EMBEDDING_BATCH_SIZE) documents)
      ∧ (S j < length batches → length batch = EMBEDDING_BATCH_SIZE)
      ∧ (S j = length batches →
         length batch = n - j * EMBEDDING_BATCH_SIZE
         ∧ (0 < length batch ≤ EMBEDDING_BATCH_SIZE)%nat).
Proof.
  intros n batches. subst batches.
  assert (Hcount : length (batches_of documents)
                   = (n + EMBEDDING_BATCH_SIZE - 1) / EMBEDDING_BATCH_SIZE).
  { unfold batches_of. by rewrite length_map, range_step_length. }
  split; [done|]. intros j batch Hbatch.
  assert (Hj : (j < length (batches_of documents))%nat)
    by (by eapply lookup_lt_Some).
  pose proof Hbatch as Hb. unfold batches_of in Hb.
  rewrite list_lookup_fmap, range_step_lookup in Hb
    by (unfold batches_of in Hj; by rewrite length_map in Hj).
  injection Hb as <-. fold n. unfold slice. split; [done|].
  rewrite length_take, length_drop. fold n.
  pose proof (Nat.div_mod_eq (n + EMBEDDING_BATCH_SIZE - 1) EMBEDDING_BATCH_SIZE)
    as Hdiv.
  pose proof (Nat.mod_upper_bound (n + EMBEDDING_BATCH_SIZE - 1)
                EMBEDDING_BATCH_SIZE) as Hmod.
  rewrite Hcount in *. unfold EMBEDDING_BATCH_SIZE in *.
  split; [intros Hlt|intros Hlast]; nia.
Qed.

Lemma batches_are_full_but_the_last_witness :
  length (batches_of (Sample.documents 250)) = 3
  ∧ ∀ batch,
      batches_of (Sample.documents 250) !! 2 = Some batch → length batch = 50.
Proof.
  destruct (batches_are_full_but_the_last (Sample.documents 250)) as [Hcount Hall].
  split; [rewrite Hcount; reflexivity|].
  intros batch Hbatch. destruct (Hall 2 batch Hbatch) as (_ & _ & Hlast).
  destruct Hlast as [Hlen _]; [rewrite Hcount; reflexivity|].
  rewrite Hlen. reflexivity.
Defined.

(** ** The query tab *)

Lemma generate_answer_world ex query docs w :
  ∃ log, snd (generate_answer ex query docs w) = set_chat_log log w.
Proof.
  destruct docs as [|d docs].
  - exists (chat_log w). simpl. by destruct w.
  - unfold generate_answer.
    destruct (environ w !! "OPENAI_API_KEY") as [key|] eqn:Hkey.
    + rewrite (bind_step _ _ _ _ _ (OpenAI_run w (mk_is_Some _ _ Hkey))).
      unfold chat_completions_create.
      exists (chat_log w ++ [answer_request query (d :: docs)]).
      by destruct (chat_remote ex (chat_log w) (answer_request query (d :: docs))).
    + exists (chat_log w). unfold OpenAI, getenv, bind. cbn. rewrite Hkey.
      cbn. by destruct w.
Qed.

Lemma bind_ret_snd {A B : Type} (c : M A) (f : A -> B) w :
  snd (bind c (fun a => ret (f a)) w) = snd (c w).
Proof. unfold bind. by destruct (c w) as [[a|e] w1]. Qed.

(** The query tab of the application, for a non-empty query.  It never
    changes the vector store.  If retrieval raises, the exception
    propagates and no chat request is sent.  If retrieval finds no
    document, the answer is the fixed message, again without a chat
    request.  Otherwise exactly one chat request goes out, built from
    the query and the retrieved texts, and the answer is the endpoint's
    reply: the client itself cannot fail for want of a key, since
    retrieval has checked the key already. *)
Theorem answer_query_follows_retrieval ex query w :
  query ≠ "" →
  let retrieved := query_knowledge_base ex query 15 w in
  let outcome := answer_query ex query w in
  vector_db (snd outcome) = vector_db w
  ∧ (∀ e, fst retrieved = Raise e →
       fst outcome = Raise e ∧ chat_log (snd outcome) = chat_log w)
  ∧ (fst retrieved = Return [] →
     fst outcome = Return (Some NO_DOCUMENTS_ANSWER)
     ∧ chat_log (snd outcome) = chat_log w)
  ∧ (∀ docs, docs ≠ [] → fst retrieved = Return docs →
       chat_log (snd outcome) = chat_log w ++ [answer_request query docs]
       ∧ fst outcome
         = match chat_remote ex (chat_log w) (answer_request query docs) with
           | Replied content => Return (Some content)
           | Failed msg => Raise (GenerationError msg)
           end).
Proof.
  intros Hquery retrieved outcome. subst retrieved outcome.
  unfold answer_query.
  destruct (String.eqb_spec query "") as [->|_]; [done|].
  destruct (falsy_str (environ w !! "OPENAI_API_KEY")) eqn:Hkey.
  { rewrite (bind_raises _ _ _ _ _ (query_without_credential ex query 15 w Hkey)).
    rewrite query_without_credential by done. simpl.
    split; [done|]. split; [by intros e [= <-]|]. split; [done|]. by intros. }
  destruct (vector_db w !! COLLECTION_NAME) as [rows|] eqn:Hrows.
  2: { rewrite (bind_raises _ _ _ _ _
                  (query_without_collection ex query 15 w Hkey Hrows)).
       rewrite query_without_collection by done. simpl.
       split; [done|]. split; [by intros e [= <-]|]. split; [done|]. by intros. }
  pose proof (query_runs ex query 15 w rows Hkey Hrows) as Hrun.
  destruct (query_knowledge_base ex query 15 w) as [[docs|e] w1] eqn:Hq;
    injection Hrun as Hres ->; simpl.
  - rewrite (bind_step _ _ _ _ _ Hq). split.
    { rewrite bind_ret_snd.
      destruct (generate_answer_world ex query docs
                  (set_embed_log (embed_log w ++ [[query]]) w)) as [log ->].
      done. }
    split; [done|]. split.
    { by intros [= ->]. }
    intros docs' Hne [= <-]. destruct docs as [|d docs]; [done|].
    assert (Hclient : OpenAI (set_embed_log (embed_log w ++ [[query]]) w)
                      = (Return tt, set_embed_log (embed_log w ++ [[query]]) w)).
    { apply OpenAI_run. simpl. unfold falsy_str in Hkey.
      by destruct (environ w !! "OPENAI_API_KEY"). }
    set (w1 := set_embed_log (embed_log w ++ [[query]]) w) in *.
    assert (Hgen : generate_answer ex query (d :: docs) w1
                   = (match chat_remote ex (chat_log w)
                              (answer_request query (d :: docs)) with
                      | Replied content => Return content
                      | Failed msg => Raise (GenerationError msg)
                      end,
                      set_chat_log
                        (chat_log w ++ [answer_request query (d :: docs)]) w1)).
    { unfold generate_answer. rewrite (bind_step _ _ _ _ _ Hclient).
      unfold chat_completions_create. simpl.
      by destruct (chat_remote ex (chat_log w) (answer_request query (d :: docs))). }
    destruct (chat_remote ex (chat_log w) (answer_request query (d :: docs)))
      as [content|msg].
    + by rewrite (bind_step _ _ _ _ _ Hgen).
    + by rewrite (bind_raises _ _ _ _ _ Hgen).
  - rewrite (bind_raises _ _ _ _ _ Hq). simpl.
    split; [done|]. split; [by intros e' [= <-]|]. split; [done|]. by intros.
Qed.

Lemma answer_query_follows_retrieval_witness :
  ∃ w',
    update_knowledge_base Sample.reliable [Sample.record_A; Sample.record_B]
      Sample.configured = (Return tt, w')
    ∧ fst (answer_query Sample.reliable "What is the total usage?" w')
      = Return (Some "canned answer")
    ∧ fst (answer_query Sample.reliable "What is the total usage?"
             Sample.configured)
      = Raise (IndexError (CollectionNotFound COLLECTION_NAME)).
Proof.
  set (w' := snd (update_knowledge_base Sample.reliable
                    [Sample.record_A; Sample.record_B] Sample.configured)).
  exists w'. split; [vm_compute; reflexivity|].
  split.
  - destruct (answer_query_follows_retrieval Sample.reliable
                "What is the total usage?" w') as (_ & _ & _ & Hdocs);
      [discriminate|].
    destruct (Hdocs [Json.dumps_indent2 (Json.JDict Sample.record_A);
                     Json.dumps_indent2 (Json.JDict Sample.record_B)])
      as [_ Hres]; [discriminate|vm_compute; reflexivity|].
    rewrite Hres. reflexivity.
  - destruct (answer_query_follows_retrieval Sample.reliable
                "What is the total usage?" Sample.configured) as (_ & Hraise & _);
      [discriminate|].
    destruct (Hraise (IndexError (CollectionNotFound COLLECTION_NAME)))
      as [Hres _]; [reflexivity|exact Hres].
Defined.

(** ** After the environment check *)

Lemma batch_failure_not_config ex batch w e :
  batch_failure ex batch w e → e ≠ ConfigError.
Proof. by intros [msg _|vs _ _|vs _ _]. Qed.

Lemma create_environ ex documents w :
  environ (snd (create_knowledge_base ex documents w)) = environ w.
Proof.
  destruct (falsy_str (environ w !! "OPENAI_API_KEY")) eqn:Hkey.
  { by rewrite create_without_credential. }
  destruct (create_knowledge_base ex documents w) as [[[]|e] w'] eqn:Hrun; simpl.
  - by apply create_returns in Hrun as (_ & vss & _ & _ & _ & _ & Henv & _).
  - apply create_raises in Hrun
      as [(_ & _ & out & ->)|(i & b & vss & w1 & _ & _ & Hg1 & _ & Hg2)];
      [done| |done].
    destruct Hg1 as (_ & _ & _ & Henv1 & _).
    destruct Hg2 as (_ & _ & _ & Henv2 & _). congruence.
Qed.

Lemma update_environ ex final_json_list w :
  environ (snd (update_knowledge_base ex final_json_list w)) = environ w.
Proof.
  destruct final_json_list as [|r rs]; [done|].
  destruct (falsy_str (environ w !! "OPENAI_API_KEY")) eqn:Hkey.
  { by rewrite update_without_credential. }
  destruct (update_knowledge_base ex (r :: rs) w) as [[[]|e] w'] eqn:Hrun; simpl.
  - apply update_returns in Hrun as (_ & vs & _ & _ & Hgrow); [|done].
    by destruct Hgrow as (_ & _ & _ & Henv & _).
  - apply update_raises in Hrun as (_ & w1 & Hg1 & _ & Hg2 & _); [|done].
    destruct Hg1 as (_ & _ & _ & Henv1 & _).
    destruct Hg2 as (_ & _ & _ & Henv2 & _). congruence.
Qed.

Lemma validate_environment_credential w :
  fst (validate_environment w) = Return true → credential_set w.
Proof.
  unfold validate_environment.
  destruct (missing_vars w) as [|var rest] eqn:Hmissing; [|discriminate].
  intros _. apply (proj1 (missing_vars_nil w) Hmissing). left.
Qed.

(** Once [validate_environment] has returned, none of the three
    knowledge-base functions raises the configuration error, and the
    client of [generate_answer] finds its key.  None of the three
    changes the environment, whether it returns or raises, so the check
    still passes after any of them. *)
Theorem validated_environment_stays_valid ex w :
  fst (validate_environment w) = Return true →
  (∀ documents,
     fst (create_knowledge_base ex documents w) ≠ Raise ConfigError
     ∧ fst (validate_environment (snd (create_knowledge_base ex documents w)))
       = Return true)
  ∧ (∀ final_json_list,
       fst (update_knowledge_base ex final_json_list w) ≠ Raise ConfigError
       ∧ fst (validate_environment
                (snd (update_knowledge_base ex final_json_list w)))
         = Return true)
  ∧ (∀ q k,
       fst (query_knowledge_base ex q k w) ≠ Raise ConfigError
       ∧ fst (validate_environment (snd (query_knowledge_base ex q k w)))
         = Return true)
  ∧ (∀ q docs msg, fst (generate_answer ex q docs w) ≠ Raise (OpenAIError msg)).
Proof.
  intros Hvalid. pose proof (validate_environment_credential w Hvalid) as Hkey.
  assert (Hkeep : ∀ w', environ w' = environ w →
                        fst (validate_environment w') = Return true).
  { intros w' Henv. unfold validate_environment, missing_vars in *.
    rewrite Henv. by destruct (List.filter _ REQUIRED_ENV_VARS). }
  split; [|split; [|split]].
  - intros documents. split; [|apply Hkeep, create_environ].
    destruct (create_knowledge_base ex documents w) as [[[]|e] w'] eqn:Hrun;
      [done|]. simpl. intros [= ->].
    apply create_raises in Hrun
      as [(_ & [msg Hmsg] & _)|(i & b & vss & w1 & _ & _ & _ & Hfail & _)];
      [done| |done].
    by apply batch_failure_not_config in Hfail.
  - intros l. split; [|apply Hkeep, update_environ].
    destruct (update_knowledge_base ex l w) as [[[]|e] w'] eqn:Hrun; [done|].
    simpl. intros [= ->].
    apply update_raises in Hrun as (_ & w1 & _ & Hfail & _); [|done].
    by apply batch_failure_not_config in Hfail.
  - intros q k.
    destruct (vector_db w !! COLLECTION_NAME) as [rows|] eqn:Hrows.
    + rewrite (query_runs ex q k w rows) by done. simpl. split; [|by apply Hkeep].
      destruct (embed_remote ex (embed_log w) [q]) as [vs|m]; [|done].
      by destruct (search ex rows vs k).
    + rewrite query_without_collection by done. simpl. split; [done|by apply Hkeep].
  - intros q docs msg. destruct docs as [|d docs]; [done|].
    unfold generate_answer.
    assert (Hclient : OpenAI w = (Return tt, w)).
    { apply OpenAI_run. unfold credential_set, falsy_str in Hkey.
      by destruct (environ w !! "OPENAI_API_KEY"). }
    rewrite (bind_step _ _ _ _ _ Hclient). unfold chat_completions_create.
    by destruct (chat_remote ex (chat_log w) _).
Qed.

Lemma validated_environment_stays_valid_witness :
  fst (validate_environment Sample.validated) = Return true
  ∧ fst (query_knowledge_base Sample.reliable "totalUsage" 15 Sample.validated)
    ≠ Raise ConfigError
  ∧ fst (validate_environment Sample.unconfigured)
    = Raise (ValueError ("Missing required environment variables: "
                         +:+ "OPENAI_API_KEY, VISION_AGENT_API_KEY")).
Proof.
  assert (Hvalid : fst (validate_environment Sample.validated) = Return true)
    by reflexivity.
  split; [exact Hvalid|]. split; [|reflexivity].
  destruct (validated_environment_stays_valid Sample.reliable Sample.validated
              Hvalid) as (_ & _ & Hquery & _).
  exact (proj1 (Hquery "totalUsage" 15%Z)).
Defined.

(** ** The directories *)

Lemma mkdir_lookup d d' (disk : gmap string (gset string)) :
  Disk.mkdir d disk !! d'
  = if decide (d = d') then Some (default ∅ (disk !! d)) else disk !! d'.
Proof.
  unfold Disk.mkdir. destruct (decide (d = d')) as [<-|Hne].
  - destruct (disk !! d) as [files|] eqn:Hd; simpl.
    + done.
    + by rewrite lookup_insert_eq.
  - destruct (disk !! d) as [files|] eqn:Hd; [done|].
    by rewrite lookup_insert_ne.
Qed.

Lemma mkdirs_lookup ds d (disk : gmap string (gset string)) :
  foldl (fun acc directory => Disk.mkdir directory acc) disk ds !! d
  = if decide (d ∈ ds) then Some (default ∅ (disk !! d)) else disk !! d.
Proof.
  revert disk. induction ds as [|x ds IH]; intros disk; cbn [foldl].
  - destruct (decide (d ∈ [])) as [Hin|_]; [by apply elem_of_nil in Hin|done].
  - rewrite IH, mkdir_lookup.
    destruct (decide (d ∈ x :: ds)) as [Hin'|Hnotin'].
    + destruct (decide (d ∈ ds)) as [Hin|Hnotin].
      * destruct (decide (x = d)) as [Heq|Hne]; [by rewrite Heq|done].
      * apply elem_of_cons in Hin' as [Hd|?]; [|done].
        rewrite decide_True by done. by rewrite Hd.
    + apply not_elem_of_cons in Hnotin' as [Hne Hnotin].
      rewrite (decide_False _ _ Hnotin). by rewrite decide_False.
Qed.

(** [ensure_directories] makes the six project directories exist and
    takes nothing away: a directory that was there keeps its entries, a
    missing one is created empty, nothing else on the disk changes, and
    a second call changes nothing. *)
Theorem ensure_directories_only_adds (disk : gmap string (gset string)) :
  let directories :=
    [SOURCE_PDF_DIR; CORRECTED_PDF_DIR; GENERIC_JSON_DIR;
     FINAL_JSON_DIR; REVIEW_DIR; VECTOR_DB_DIR] in
  (∀ d, d ∈ directories → is_Some (ensure_directories disk !! d))
  ∧ (∀ d files, disk !! d = Some files →
       ensure_directories disk !! d = Some files)
  ∧ (∀ d, d ∈ directories → disk !! d = None →
       ensure_directories disk !! d = Some ∅)
  ∧ (∀ d, d ∉ directories → ensure_directories disk !! d = disk !! d)
  ∧ ensure_directories (ensure_directories disk) = ensure_directories disk.
Proof.
  intros directories.
  assert (Hlook : ∀ disk0 d,
            ensure_directories disk0 !! d
            = if decide (d ∈ directories) then Some (default ∅ (disk0 !! d))
              else disk0 !! d).
  { intros disk0 d. unfold ensure_directories. apply mkdirs_lookup. }
  split; [|split; [|split; [|split]]].
  - intros d Hd. rewrite Hlook. by rewrite decide_True.
  - intros d files Hfiles. rewrite Hlook, Hfiles. by case_decide.
  - intros d Hd Hnone. rewrite Hlook, Hnone. by rewrite decide_True.
  - intros d Hd. rewrite Hlook. by rewrite decide_False.
  - apply map_eq. intros d. rewrite !Hlook. by case_decide.
Qed.

Lemma clean_step_lookup d d' (disk : gmap string (gset string)) :
  Disk.mkdir d (if Disk.exists_ d disk then Disk.rmtree d disk else disk) !! d'
  = if decide (d = d') then Some ∅ else disk !! d'.
Proof.
  rewrite mkdir_lookup. unfold Disk.exists_, Disk.rmtree.
  destruct (bool_decide_reflect (is_Some (disk !! d))) as [Hsome|Hnone].
  - destruct (decide (d = d')) as [<-|Hne].
    + by rewrite lookup_delete_eq.
    + by rewrite lookup_delete_ne.
  - destruct (decide (d = d')) as [<-|Hne]; [|done].
    destruct (disk !! d) eqn:Hd; [|done]. exfalso. by apply Hnone.
Qed.

Lemma clean_steps_lookup ds d (disk : gmap string (gset string)) :
  foldl (fun acc directory =>
           Disk.mkdir directory
             (if Disk.exists_ directory acc then Disk.rmtree directory acc
              else acc)) disk ds !! d
  = if decide (d ∈ ds) then Some ∅ else disk !! d.
Proof.
  revert disk. induction ds as [|x ds IH]; intros disk; cbn [foldl].
  - destruct (decide (d ∈ [])) as [Hin|_]; [by apply elem_of_nil in Hin|done].
  - rewrite IH, clean_step_lookup.
    destruct (decide (d ∈ x :: ds)) as [Hin'|Hnotin'].
    + destruct (decide (d ∈ ds)) as [Hin|Hnotin]; [done|].
      apply elem_of_cons in Hin' as [Hd|?]; [|done].
      by rewrite decide_True.
    + apply not_elem_of_cons in Hnotin' as [Hne Hnotin].
      rewrite (decide_False _ _ Hnotin). by rewrite decide_False.
Qed.

(** [cleanup_intermediate_folders] leaves the three intermediate
    directories existing and empty, whether they existed or not, and
    touches nothing else: the final JSON outputs, the review folder and
    the vector database directory are exactly as they were.  A second
    call changes nothing. *)
Theorem cleanup_spares_the_outputs (disk : gmap string (gset string)) :
  (∀ d, d ∈ [SOURCE_PDF_DIR; CORRECTED_PDF_DIR; GENERIC_JSON_DIR] →
     cleanup_intermediate_folders disk !! d = Some ∅)
  ∧ (∀ d, d ∉ [SOURCE_PDF_DIR; CORRECTED_PDF_DIR; GENERIC_JSON_DIR] →
       cleanup_intermediate_folders disk !! d = disk !! d)
  ∧ cleanup_intermediate_folders disk !! FINAL_JSON_DIR = disk !! FINAL_JSON_DIR
  ∧ cleanup_intermediate_folders disk !! REVIEW_DIR = disk !! REVIEW_DIR
  ∧ cleanup_intermediate_folders disk !! VECTOR_DB_DIR = disk !! VECTOR_DB_DIR
  ∧ cleanup_intermediate_folders (cleanup_intermediate_folders disk)
    = cleanup_intermediate_folders disk.
Proof.
  assert (Hlook : ∀ disk0 d,
            cleanup_intermediate_folders disk0 !! d
            = if decide (d ∈ [SOURCE_PDF_DIR; CORRECTED_PDF_DIR; GENERIC_JSON_DIR])
              then Some ∅ else disk0 !! d).
  { intros disk0 d. unfold cleanup_intermediate_folders. apply clean_steps_lookup. }
  assert (Hother : ∀ d, d ∉ [SOURCE_PDF_DIR; CORRECTED_PDF_DIR; GENERIC_JSON_DIR] →
                        cleanup_intermediate_folders disk !! d = disk !! d).
  { intros d Hd. rewrite Hlook. by rewrite decide_False. }
  split; [|split; [done|]].
  - intros d Hd. rewrite Hlook. by rewrite decide_True.
  - split; [|split; [|split]].
    + apply Hother. by apply (bool_decide_unpack _).
    + apply Hother. by apply (bool_decide_unpack _).
    + apply Hother. by apply (bool_decide_unpack _).
    + apply map_eq. intros d. rewrite !Hlook. by case_decide.
Qed.

(** ** Quality control of one document *)

Lemma mkdir_file_exists x d n (disk : gmap string (gset string)) :
  Disk.file_exists d n (Disk.mkdir x disk) = Disk.file_exists d n disk.
Proof.
  unfold Disk.file_exists. rewrite mkdir_lookup.
  destruct (decide (x = d)) as [->|Hne]; [|done].
  by destruct (disk !! d).
Qed.

Lemma mkdir_dom x (disk : gmap string (gset string)) :
  dom (Disk.mkdir x disk) = {[ x ]} ∪ dom disk.
Proof.
  unfold Disk.mkdir. destruct (disk !! x) as [files|] eqn:Hx.
  - apply set_eq. intros y. rewrite elem_of_union, elem_of_singleton.
    split; [by right|]. intros [->|Hy]; [|done].
    apply elem_of_dom. by exists files.
  - by rewrite dom_insert_L.
Qed.

Lemma move_file_exists src name tgt d n (disk : gmap string (gset string)) :
  Disk.file_exists d n (Disk.move src name tgt disk)
  ↔ (d = tgt ∧ n = name)
    ∨ (Disk.file_exists d n disk ∧ ¬ (d = src ∧ n = name)).
Proof.
  unfold Disk.file_exists, Disk.move. rewrite !bool_decide_spec.
  destruct (decide (d = tgt)) as [->|Ht].
  - rewrite lookup_insert_eq. cbn [from_option id].
    destruct (decide (tgt = src)) as [->|Hs].
    + rewrite lookup_insert_eq. cbn [from_option id].
      rewrite elem_of_union, elem_of_difference, elem_of_singleton.
      destruct (decide (n = name)); intuition congruence.
    + rewrite lookup_insert_ne by done.
      rewrite elem_of_union, elem_of_singleton.
      destruct (decide (n = name)); intuition congruence.
  - rewrite lookup_insert_ne by done.
    destruct (decide (d = src)) as [->|Hs].
    + rewrite lookup_insert_eq. cbn [from_option id].
      rewrite elem_of_difference, elem_of_singleton. intuition congruence.
    + rewrite lookup_insert_ne by done. intuition congruence.
Qed.

Lemma move_dom src name tgt (disk : gmap string (gset string)) :
  dom (Disk.move src name tgt disk) = {[ src; tgt ]} ∪ dom disk.
Proof.
  unfold Disk.move. rewrite !dom_insert_L. apply set_eq. intros y.
  rewrite !elem_of_union, !elem_of_singleton. tauto.
Qed.

Lemma check_flagged ex json_data pdf_dir pdf_name status_callback
    (disk : gmap string (gset string)) log :
  Json.get "_qc_flag" json_data = Some (Json.JBool true) →
  check_single_document ex json_data pdf_dir pdf_name status_callback disk log
  = (true,
     if Disk.file_exists pdf_dir pdf_name disk
     then Disk.move pdf_dir pdf_name REVIEW_DIR (Disk.mkdir REVIEW_DIR disk)
     else Disk.mkdir REVIEW_DIR disk,
     if status_callback
     then log ++ ["QC Flag: "
                  +:+ Json.format_value (container_repr ex)
                        (Some (default (Json.JStr "No reason specified")
                                 (Json.get "_qc_reason" json_data)))]
     else log).
Proof.
  intros Hflag. unfold check_single_document. rewrite Hflag.
  rewrite mkdir_file_exists.
  destruct (Disk.file_exists pdf_dir pdf_name disk);
    by destruct (Json.get "_qc_reason" json_data).
Qed.

(** [check_single_document] flags a document exactly when its
    [_qc_flag] is the boolean [True]: a missing flag, [False], a number
    or a text such as ["true"] does not flag it, and then neither the
    disk nor the status messages change. *)
Theorem only_a_true_flag_is_flagged ex json_data pdf_dir pdf_name status_callback
    (disk : gmap string (gset string)) log :
  let checked :=
    check_single_document ex json_data pdf_dir pdf_name status_callback disk log in
  (checked.1.1 = true ↔ Json.get "_qc_flag" json_data = Some (Json.JBool true))
  ∧ (checked.1.1 = false → checked.1.2 = disk ∧ checked.2 = log).
Proof.
  cbv zeta. unfold check_single_document.
  destruct (Json.get "_qc_flag" json_data) as [[|[]| | | | |]|]; cbn; try done.
  by destruct (Disk.file_exists _ _ _).
Qed.

(** A flagged document: the review folder exists afterwards and no
    other directory appears or disappears; the PDF, when it is there,
    is afterwards in the review folder and no longer where it was; every
    other file stays where it is, and a missing PDF moves nothing. *)
Theorem flagged_pdf_is_moved_to_review ex json_data pdf_dir pdf_name
    status_callback (disk : gmap string (gset string)) log flagged disk' log' :
  Json.get "_qc_flag" json_data = Some (Json.JBool true) →
  check_single_document ex json_data pdf_dir pdf_name status_callback disk log
  = (flagged, disk', log') →
  flagged = true
  ∧ dom disk' = {[ REVIEW_DIR ]} ∪ dom disk
  ∧ (∀ d n,
       Disk.file_exists d n disk'
       ↔ (d = REVIEW_DIR ∧ n = pdf_name ∧ Disk.file_exists pdf_dir pdf_name disk)
         ∨ (Disk.file_exists d n disk ∧ ¬ (d = pdf_dir ∧ n = pdf_name)))
  ∧ (¬ Disk.file_exists pdf_dir pdf_name disk →
       disk' = Disk.mkdir REVIEW_DIR disk).
Proof.
  intros Hflag Hrun. rewrite (check_flagged _ _ _ _ _ _ _ Hflag) in Hrun.
  injection Hrun as <- <- <-.
  destruct (Disk.file_exists pdf_dir pdf_name disk) eqn:Hpdf.
  - split; [done|]. split; [|split].
    + rewrite move_dom, mkdir_dom. apply set_eq. intros y.
      rewrite !elem_of_union, !elem_of_singleton.
      assert (pdf_dir ∈ dom disk) as Hdir.
      { unfold Disk.file_exists in Hpdf. apply bool_decide_eq_true in Hpdf.
        apply elem_of_dom. destruct (disk !! pdf_dir); [done|].
        by apply elem_of_empty in Hpdf. }
      split; [|tauto].
      intros [[Hy|Hy]|[Hy|Hy]]; [right; by rewrite Hy|by left|by left|by right].
    + intros d n. rewrite move_file_exists, mkdir_file_exists.
      change (Is_true true) with True. tauto.
    + intros Hno. by destruct Hno.
  - split; [done|]. split; [|split].
    + apply mkdir_dom.
    + intros d n. rewrite mkdir_file_exists. split.
      * intros Hfile. right. split; [done|]. intros [-> ->].
        rewrite Hpdf in Hfile. done.
      * intros [(_ & _ & [])|[Hfile _]]. done.
    + done.
Qed.

Lemma flagged_pdf_is_moved_to_review_witness :
  Disk.file_exists REVIEW_DIR "A.pdf"
    (check_single_document Sample.reliable Sample.record_flagged
       SOURCE_PDF_DIR "A.pdf" true Sample.inbox []).1.2
  ∧ Disk.file_exists SOURCE_PDF_DIR "B.pdf"
      (check_single_document Sample.reliable Sample.record_flagged
         SOURCE_PDF_DIR "A.pdf" true Sample.inbox []).1.2.
Proof.
  destruct (check_single_document Sample.reliable Sample.record_flagged
              SOURCE_PDF_DIR "A.pdf" true Sample.inbox [])
    as [[flagged disk'] log'] eqn:Hrun.
  destruct (flagged_pdf_is_moved_to_review Sample.reliable Sample.record_flagged
              SOURCE_PDF_DIR "A.pdf" true Sample.inbox [] flagged disk' log'
              eq_refl Hrun)
    as (_ & _ & Hfiles & _).
  split; apply Hfiles.
  - left. split; [done|]. split; [done|]. by vm_compute.
  - right. split; [by vm_compute|]. intros [_ Hname]. discriminate Hname.
Defined.

(** The status message of a flagged document: none without a callback;
    with one, exactly one message, ["QC Flag: "] followed by the reason:
    the default text ["No reason specified"] when the record has no
    [_qc_reason] key, the reason itself when it is a string, and
    ["None"], not the default, when the key holds [null]. *)
Theorem qc_message_reports_the_reason ex json_data pdf_dir pdf_name
    status_callback (disk : gmap string (gset string)) log :
  Json.get "_qc_flag" json_data = Some (Json.JBool true) →
  let log' :=
    (check_single_document ex json_data pdf_dir pdf_name status_callback
       disk log).2 in
  (status_callback = false → log' = log)
  ∧ (status_callback = true →
       ∃ reason, log' = log ++ ["QC Flag: " +:+ reason]
         ∧ (Json.get "_qc_reason" json_data = None →
              reason = "No reason specified")
         ∧ (∀ text, Json.get "_qc_reason" json_data = Some (Json.JStr text) →
              reason = text)
         ∧ (Json.get "_qc_reason" json_data = Some Json.JNull →
              reason = "None")).
Proof.
  intros Hflag. cbv zeta. rewrite (check_flagged _ _ _ _ _ _ _ Hflag). cbn [snd].
  split; intros ->; [done|].
  eexists. split; [done|].
  split; [|split].
  - by intros ->.
  - by intros text ->.
  - by intros ->.
Qed.

Lemma qc_message_reports_the_reason_witness :
  (check_single_document Sample.reliable Sample.record_flagged
     SOURCE_PDF_DIR "A.pdf" true Sample.inbox []).2
  = ["QC Flag: low confidence"].
Proof.
  destruct (qc_message_reports_the_reason Sample.reliable Sample.record_flagged
              SOURCE_PDF_DIR "A.pdf" true Sample.inbox [] eq_refl)
    as [_ Hmsg].
  destruct (Hmsg eq_refl) as (reason & -> & _ & Htext & _).
  by rewrite (Htext "low confidence" eq_refl).
Defined.
